(** * Lead-scraper job pipeline: a shallow embedding and its properties

    The development follows the Python sources under [backend/scraper]:
    - [services/discovery.py]   (discovery and de-duplication),
    - [services/enrichment.py]  (per-platform enrichment, incremental scorer),
    - [services/orchestrator.py] (the job pipeline and the final scorer),
    - [api/routes.py]           (the cancellation route),
    - [tasks/scraping_tasks.py] (the Celery wrapper around the pipeline).

    Python dictionaries are finite maps with string keys, Python floats are
    binary64 primitive floats, exceptions are values of an error type, and
    the database is an explicit state threaded through a small task monad
    whose steps are the suspension points ([await]) of the coroutines. *)

From Stdlib Require Import ZArith Floats Ascii String List Lia.
From stdpp Require Import gmap strings list sorting.

Set Warnings "-register-all,-inexact-float".

Local Open Scope Z_scope.
Local Open Scope string_scope.
Local Open Scope list_scope.

(* ===================================================================== *)
(** * Python values, exceptions and results *)
(* ===================================================================== *)

(** A JSON-like Python value, as found in the lead dictionaries. *)
Inductive value :=
  | VNone
  | VStr (s : string)
  | VInt (z : Z)
  | VFloat (x : float)
  | VList (l : list value)
  | VDict (d : gmap string value).

(** [Dict[str, Any]] *)
Abbreviation dict := (gmap string value).

(** An exception: [Exception cls msg] stands for any subclass of Python's
    [Exception] with class name [cls] and [str(e) = msg];
    [HTTPException] is FastAPI's, with its status code and detail. *)
Inductive exn :=
  | Exception (cls msg : string)
  | HTTPException (status_code : Z) (detail : string).

(** [str(e)] *)
Definition exn_str (e : exn) : string :=
  match e with
  | Exception _ msg => msg
  | HTTPException _ detail => detail
  end.

Inductive result (A : Type) :=
  | Ok (a : A)
  | Raise (e : exn).
Arguments Ok {A} a.
Arguments Raise {A} e.

Definition rbind {A B} (r : result A) (k : A -> result B) : result B :=
  match r with
  | Ok a => k a
  | Raise e => Raise e
  end.

Declare Scope result_scope.
Delimit Scope result_scope with res.
Notation "x <- r ;; k" := (rbind r (fun x => k))
  (at level 100, r at next level, right associativity) : result_scope.

Definition is_ok {A} (r : result A) : bool :=
  match r with Ok _ => true | Raise _ => false end.

(** [type(v).__name__] *)
Definition type_name (v : value) : string :=
  match v with
  | VNone => "NoneType"
  | VStr _ => "str"
  | VInt _ => "int"
  | VFloat _ => "float"
  | VList _ => "list"
  | VDict _ => "dict"
  end.

(** Truth value of a Python object ([bool(v)]). *)
Definition truthy (v : value) : bool :=
  match v with
  | VNone => false
  | VStr s => negb (String.eqb s "")
  | VInt z => negb (Z.eqb z 0)
  | VFloat x => negb (PrimFloat.eqb x 0%float)
  | VList l => negb (Nat.eqb (length l) 0)
  | VDict d => negb (Nat.eqb (size d) 0)
  end.

(** [len(v)] *)
Definition py_len (v : value) : result nat :=
  match v with
  | VStr s => Ok (String.length s)
  | VList l => Ok (length l)
  | VDict d => Ok (size d)
  | _ => Raise (Exception "TypeError"
                  ("object of type '" ++ type_name v ++ "' has no len()"))
  end.

(** [v[k] = x]: item assignment, on the object itself. *)
Definition py_setitem (v : value) (k : string) (x : value) : result value :=
  match v with
  | VDict d => Ok (VDict (<[k := x]> d))
  | _ => Raise (Exception "TypeError"
                  ("'" ++ type_name v ++ "' object does not support item assignment"))
  end.

(** [d.get(k)]: a missing key reads as [None]. *)
Definition dict_get (d : dict) (k : string) : value :=
  default VNone (d !! k).

(** [d.get(k, dflt)] *)
Definition dict_get_default (d : dict) (k : string) (dflt : value) : value :=
  default dflt (d !! k).

(* --------------------------------------------------------------------- *)
(** ** Strings: [str.lower] and [str.strip] on ASCII text *)
(* --------------------------------------------------------------------- *)

Module PyStr.

(** [c.lower()] for one ASCII character. *)
Definition lower_ascii (c : ascii) : ascii :=
  let n := nat_of_ascii c in
  if (Nat.leb 65 n && Nat.leb n 90)%bool then ascii_of_nat (n + 32) else c.

(** [c.isspace()] for one ASCII character: TAB, LF, VT, FF, CR, the four
    separators 0x1c-0x1f and the blank. *)
Definition is_space (c : ascii) : bool :=
  let n := nat_of_ascii c in
  ((Nat.leb 9 n && Nat.leb n 13) || (Nat.leb 28 n && Nat.leb n 32))%bool.

Fixpoint lower (s : string) : string :=
  match s with
  | EmptyString => EmptyString
  | String c s' => String (lower_ascii c) (lower s')
  end.

Fixpoint lstrip_chars (l : list ascii) : list ascii :=
  match l with
  | c :: l' => if is_space c then lstrip_chars l' else l
  | [] => []
  end.

(** [s.strip()] *)
Definition strip (s : string) : string :=
  string_of_list_ascii
    (rev (lstrip_chars (rev (lstrip_chars (list_ascii_of_string s))))).

End PyStr.

(** The method call [v.lower()] / [v.strip()] on an arbitrary value: only
    [str] has the attribute. *)
Definition str_method (meth : string) (f : string -> string) (v : value)
  : result value :=
  match v with
  | VStr s => Ok (VStr (f s))
  | _ => Raise (Exception "AttributeError"
                  ("'" ++ type_name v ++ "' object has no attribute '" ++ meth ++ "'"))
  end.

Definition as_str (v : value) : string :=
  match v with VStr s => s | _ => "" end.

(* ===================================================================== *)
(** * Python floats (binary64) *)
(* ===================================================================== *)

Module PyFloat.

(** [float(n)] for a size or a count. *)
Definition of_nat (n : nat) : float :=
  PrimFloat.of_uint63 (Uint63.of_Z (Z.of_nat n)).

(** [min(a, b)] on floats: [b] is taken only when [b < a]. *)
Definition min (a b : float) : float :=
  if PrimFloat.ltb b a then b else a.

(** The integral part of [m * 2^e], towards zero, for [m > 0]. *)
Definition trunc_pos (m : positive) (e : Z) : Z :=
  match e with
  | Z0 => Zpos m
  | Zpos p => Z.shiftl (Zpos m) (Zpos p)
  | Zneg p => Z.shiftr (Zpos m) (Zpos p)
  end.

(** [m * 2^e] rounded to the nearest integer, ties to even, for [m > 0]. *)
Definition round_pos (m : positive) (e : Z) : Z :=
  match e with
  | Zneg p =>
      let d := Z.shiftl 1 (Zpos p) in
      let q := Z.shiftr (Zpos m) (Zpos p) in
      let r := Zpos m - q * d in
      match Z.compare (2 * r) d with
      | Lt => q
      | Gt => q + 1
      | Eq => if Z.even q then q else q + 1
      end
  | _ => trunc_pos m e
  end.

Definition to_Z_with (f : positive -> Z -> Z) (x : float) : result Z :=
  match Prim2SF x with
  | S754_zero _ => Ok 0
  | S754_finite s m e => Ok (if s then - f m e else f m e)
  | S754_infinity _ =>
      Raise (Exception "OverflowError" "cannot convert float infinity to integer")
  | S754_nan =>
      Raise (Exception "ValueError" "cannot convert float NaN to integer")
  end.

(** [int(x)]: truncation towards zero. *)
Definition int (x : float) : result Z := to_Z_with trunc_pos x.

(** [round(x)]: nearest integer, ties to even. *)
Definition round (x : float) : result Z := to_Z_with round_pos x.

End PyFloat.

(* ===================================================================== *)
(** * discovery.py: the de-duplicator *)
(* ===================================================================== *)

Module Discovery.

(** The identity key of a lead: a pair of strings. *)
Abbreviation ident := (string * string)%type.

(** [(lead.get('business_name', '').lower().strip(),
      lead.get('phone', '').strip())] *)
Definition identifier (lead : dict) : result ident :=
  (b1 <- str_method "lower" PyStr.lower
          (dict_get_default lead "business_name" (VStr "")) ;;
   b2 <- str_method "strip" PyStr.strip b1 ;;
   p <- str_method "strip" PyStr.strip
          (dict_get_default lead "phone" (VStr "")) ;;
   Ok (as_str b2, as_str p))%res.

(** [any(identifier)]: some component is a non-empty string. *)
Definition any_ident (k : ident) : bool :=
  (negb (String.eqb (fst k) "") || negb (String.eqb (snd k) ""))%bool.

(** The loop of [_deduplicate_leads], with its two accumulators. *)
Fixpoint dedup_loop (leads : list dict) (seen : gset ident)
    (unique_leads : list dict) : result (list dict) :=
  match leads with
  | [] => Ok unique_leads
  | lead :: rest =>
      match identifier lead with
      | Raise e => Raise e
      | Ok k =>
          if (bool_decide (k ∉ seen) && any_ident k)%bool
          then dedup_loop rest ({[ k ]} ∪ seen) (unique_leads ++ [lead])
          else dedup_loop rest seen unique_leads
      end
  end.

Definition _deduplicate_leads (leads : list dict) : result (list dict) :=
  dedup_loop leads ∅ [].


(** Specification-level reading of "first occurrence wins": position [i]
    survives when its key is not blank and differs from every earlier key. *)
Definition kept_at (keys : list ident) (i : nat) : bool :=
  match keys !! i with
  | Some k => (any_ident k && bool_decide (k ∉ take i keys))%bool
  | None => false
  end.

Definition first_wins (leads : list dict) (keys : list ident) : list dict :=
  (filter (λ p : nat * dict, kept_at keys p.1 = true) (imap pair leads)).*2.

(** [len(all_leads) < max_results] *)
Definition len_lt (n : nat) (max_results : value) : result bool :=
  match max_results with
  | VInt m => Ok (Z.ltb (Z.of_nat n) m)
  | VFloat x => Ok (PrimFloat.ltb (PyFloat.of_nat n) x)
  | _ => Raise (Exception "TypeError"
           ("'<' not supported between instances of 'int' and '"
              ++ type_name max_results ++ "'"))
  end.

(** [max_results - len(all_leads)], once the comparison has succeeded. *)
Definition minus_len (max_results : value) (n : nat) : value :=
  match max_results with
  | VInt m => VInt (m - Z.of_nat n)
  | VFloat x => VFloat (x - PyFloat.of_nat n)
  | _ => VNone
  end.

(** [l[:max_results]] *)
Definition slice_to {A} (l : list A) (max_results : value) : result (list A) :=
  match max_results with
  | VInt m =>
      if Z.leb 0 m then Ok (take (Z.to_nat m) l)
      else Ok (take (Z.to_nat (Z.of_nat (length l) + m)) l)
  | VNone => Ok l
  | _ => Raise (Exception "TypeError"
           "slice indices must be integers or None or have an __index__ method")
  end.

(** [discover]: the primary source, the secondary one when the primary
    under-filled [max_results], de-duplication, truncation.  A provider
    that raises contributes nothing. *)
Definition discover
    (google_maps_search :
       value -> value -> value -> value -> value -> result (list dict))
    (google_business_search :
       value -> value -> value -> value -> result (list dict))
    (industry location radius max_results keywords job_title : value)
  : result (list dict) :=
  (let all_leads :=
     match google_maps_search industry location radius max_results keywords with
     | Ok google_leads => google_leads
     | Raise _ => []
     end in
   under <- len_lt (length all_leads) max_results ;;
   let all_leads :=
     if (under : bool) then
       let remaining := minus_len max_results (length all_leads) in
       match google_business_search industry location remaining keywords with
       | Ok business_leads => all_leads ++ business_leads
       | Raise _ => all_leads
       end
     else all_leads in
   deduplicated_leads <- _deduplicate_leads all_leads ;;
   slice_to deduplicated_leads max_results)%res.

End Discovery.

(* ===================================================================== *)
(** * models.py: the enumerations *)
(* ===================================================================== *)

Inductive JobStatus := QUEUED | PROCESSING | COMPLETED | FAILED | CANCELLED.

Inductive ScrapingIntensity := BASIC | STANDARD | PREMIUM.

Inductive PlatformType :=
  | GOOGLE_MAPS | GOOGLE_BUSINESS | LINKEDIN | FACEBOOK | INSTAGRAM
  | GOOGLE_SEARCH.

#[global] Instance JobStatus_eq_dec : EqDecision JobStatus.
Proof. solve_decision. Defined.
#[global] Instance ScrapingIntensity_eq_dec : EqDecision ScrapingIntensity.
Proof. solve_decision. Defined.
#[global] Instance PlatformType_eq_dec : EqDecision PlatformType.
Proof. solve_decision. Defined.

(** The [.value] of each member. *)
Definition status_value (s : JobStatus) : string :=
  match s with
  | QUEUED => "queued" | PROCESSING => "processing" | COMPLETED => "completed"
  | FAILED => "failed" | CANCELLED => "cancelled"
  end.

Definition intensity_value (i : ScrapingIntensity) : string :=
  match i with BASIC => "basic" | STANDARD => "standard" | PREMIUM => "premium" end.

Definition platform_value (p : PlatformType) : string :=
  match p with
  | GOOGLE_MAPS => "google_maps" | GOOGLE_BUSINESS => "google_business"
  | LINKEDIN => "linkedin" | FACEBOOK => "facebook" | INSTAGRAM => "instagram"
  | GOOGLE_SEARCH => "google_search"
  end.

Definition all_platforms : list PlatformType :=
  [GOOGLE_MAPS; GOOGLE_BUSINESS; LINKEDIN; FACEBOOK; INSTAGRAM; GOOGLE_SEARCH].

Definition not_a_valid (cls : string) (v : value) : exn :=
  Exception "ValueError" (as_str v ++ " is not a valid " ++ cls).

(** [PlatformType(v)]: look the member up by value. *)
Definition PlatformType_of (v : value) : result PlatformType :=
  match v with
  | VStr s =>
      match List.find (fun p => String.eqb (platform_value p) s) all_platforms with
      | Some p => Ok p
      | None => Raise (not_a_valid "PlatformType" v)
      end
  | _ => Raise (not_a_valid "PlatformType" v)
  end.

(** [ScrapingIntensity(v)] *)
Definition ScrapingIntensity_of (v : value) : result ScrapingIntensity :=
  match v with
  | VStr s =>
      match List.find (fun i => String.eqb (intensity_value i) s)
                      [BASIC; STANDARD; PREMIUM] with
      | Some i => Ok i
      | None => Raise (not_a_valid "ScrapingIntensity" v)
      end
  | _ => Raise (not_a_valid "ScrapingIntensity" v)
  end.

(* ===================================================================== *)
(** * enrichment.py: the enrichment coordinator *)
(* ===================================================================== *)

Module Enrichment.

(** One entry of [intensity_configs]. *)
Record config := {
  depth : Z;
  fields : list string;
  concurrent_requests : nat
}.

Definition intensity_configs (i : ScrapingIntensity) : config :=
  match i with
  | BASIC =>
      {| depth := 1; fields := ["basic_info"]; concurrent_requests := 5 |}
  | STANDARD =>
      {| depth := 2;
         fields := ["basic_info"; "contact_info"; "social_profiles"];
         concurrent_requests := 3 |}
  | PREMIUM =>
      {| depth := 3;
         fields := ["basic_info"; "contact_info"; "social_profiles";
                    "content_analysis"; "network_data"];
         concurrent_requests := 2 |}
  end.

(** [platform in self.enrichers] *)
Definition has_enricher (p : PlatformType) : bool :=
  match p with
  | LINKEDIN | FACEBOOK | INSTAGRAM | GOOGLE_SEARCH => true
  | GOOGLE_MAPS | GOOGLE_BUSINESS => false
  end.

(** The outcome of one provider call [enrichers[platform].enrich(lead,
    fields, depth)].  The providers are external: the call issued for the
    lead at position [lead_no] of the input and the platform at position
    [call_no] of the requested list either returns a payload or raises. *)
Definition enricher :=
  nat -> nat -> PlatformType -> dict -> list string -> Z -> result value.

Definition base_fields : list string :=
  ["name"; "business_name"; "phone"; "email"; "website"; "address"].

(** [sum(1 for field in base_fields if lead.get(field))] *)
Definition filled_base (lead : dict) : nat :=
  length (List.filter (fun field => truthy (dict_get lead field)) base_fields).

(** The three scores of the incremental scorer, as functions of the
    number of filled base fields and of [len(enrichment_data)]. *)
Definition total_completeness (filled n : nat) : float :=
  let base_completeness := (PyFloat.of_nat filled / PyFloat.of_nat 6)%float in
  let enrichment_bonus := (PyFloat.of_nat n * 0.1)%float in
  PyFloat.min 1.0%float (base_completeness + enrichment_bonus)%float.

Definition enrichment_quality (filled n : nat) : result Z :=
  PyFloat.int (total_completeness filled n * 100)%float.

Definition enrichment_confidence (n : nat) : float :=
  PyFloat.min 0.95%float (0.6 + PyFloat.of_nat n * 0.1)%float.

Definition _calculate_enrichment_scores (lead : dict) : result dict :=
  (let enrichment_data := dict_get_default lead "enrichment_data" (VDict ∅) in
   let filled := filled_base lead in
   n <- py_len enrichment_data ;;
   quality_score <- enrichment_quality filled n ;;
   Ok ({[ "quality_score" := VInt quality_score;
          "completeness_score" := VFloat (total_completeness filled n);
          "confidence_score" := VFloat (enrichment_confidence n) ]} : dict))%res.

(** The body of the [for platform in platforms] loop.  The dictionary
    [enrichment_data] is the object stored under the lead's
    ['enrichment_data'] key when that key is present (the copy made by
    [lead.copy()] is shallow), so the provider sees the entries written
    so far; when the key is absent the object is a fresh [{}] that the
    lead does not reference. *)
Definition lead_view (lead : dict) (enrichment_data : value) : dict :=
  match lead !! "enrichment_data" with
  | Some _ => <["enrichment_data" := enrichment_data]> lead
  | None => lead
  end.

Fixpoint enrich_platforms (enrich : enricher) (lead_no call_no : nat)
    (lead : dict) (platforms : list PlatformType) (cfg : config)
    (enrichment_data : value) : value :=
  match platforms with
  | [] => enrichment_data
  | platform :: rest =>
      let attempt :=
        (platform_data <- enrich lead_no call_no platform
                            (lead_view lead enrichment_data)
                            (fields cfg) (depth cfg) ;;
         py_setitem enrichment_data (platform_value platform) platform_data)%res in
      let enrichment_data' :=
        if has_enricher platform then
          match attempt with
          | Ok ed => ed
          | Raise _ => enrichment_data      (* except Exception: log *)
          end
        else enrichment_data in
      enrich_platforms enrich lead_no (S call_no) lead rest cfg enrichment_data'
  end.

Definition _enrich_single_lead (enrich : enricher) (lead_no : nat)
    (lead : dict) (platforms : list PlatformType) (cfg : config)
  : result dict :=
  (let enrichment_data := dict_get_default lead "enrichment_data" (VDict ∅) in
   let enrichment_data := enrich_platforms enrich lead_no 0 lead platforms cfg
                            enrichment_data in
   let enriched_lead := <["enrichment_data" := enrichment_data]> lead in
   scores <- _calculate_enrichment_scores enriched_lead ;;
   Ok (scores ∪ enriched_lead))%res.

(** [range(0, stop, step)] with [step > 0]. *)
Fixpoint range_from (fuel start stop step : nat) : list nat :=
  match fuel with
  | O => []
  | S fuel' =>
      if Nat.ltb start stop
      then start :: range_from fuel' (start + step) stop step
      else []
  end.

Definition py_range (stop step : nat) : list nat := range_from stop 0 stop step.

(** [l[i:j]] for [0 <= i <= j]. *)
Definition slice {A} (l : list A) (i j : nat) : list A := take (j - i) (drop i l).

(** What [enrich_leads] does that an observer can see: each batch is one
    [asyncio.gather] over the coroutines of its leads, followed by
    [asyncio.sleep(1)]. *)
Inductive event :=
  | EvGather (lead_nos : list nat)
  | EvSleep (seconds : Z).

(** One iteration of the batch loop: the coroutines of the batch, the
    results of [gather(..., return_exceptions=True)] in order, and the
    dictionaries among them. *)
Definition batch_results (enrich : enricher) (leads : list dict)
    (platforms : list PlatformType) (cfg : config) (i : nat)
  : list (result dict) :=
  let batch := slice leads i (i + concurrent_requests cfg) in
  imap (fun k lead => _enrich_single_lead enrich (i + k) lead platforms cfg) batch.

(** [isinstance(result, dict)] keeps the returned dictionaries. *)
Definition successful {A} (results : list (result A)) : list A :=
  omap (fun r => match r with Ok d => Some d | Raise _ => None end) results.

Fixpoint enrich_batches (enrich : enricher) (leads : list dict)
    (platforms : list PlatformType) (cfg : config) (offsets : list nat)
    (enriched_leads : list dict) (trace : list event)
  : list dict * list event :=
  match offsets with
  | [] => (enriched_leads, trace)
  | i :: rest =>
      let results := batch_results enrich leads platforms cfg i in
      enrich_batches enrich leads platforms cfg rest
        (enriched_leads ++ successful results)
        (trace ++ [EvGather (seq i (length results)); EvSleep 1])
  end.

(** [enrich_leads]: the returned list and the trace of gathers and sleeps. *)
Definition enrich_leads (enrich : enricher) (leads : list dict)
    (platforms : list PlatformType) (intensity : ScrapingIntensity)
  : list dict * list event :=
  let cfg := intensity_configs intensity in
  let batch_size := concurrent_requests cfg in
  enrich_batches enrich leads platforms cfg
    (py_range (length leads) batch_size) [] [].

End Enrichment.

(* ===================================================================== *)
(** * models.py: the two tables, and the state of the system *)
(* ===================================================================== *)

(** A UUID, in its textual form. *)
Abbreviation uuid := string.

(** A row of [scraping_jobs] (the columns the pipeline reads or writes). *)
Module ScrapingJob.
Record t := {
  request_params : dict;
  status : JobStatus;
  progress : Z;
  results_count : Z;
  error_message : option string;
  started_at : option nat;
  completed_at : option nat
}.

Definition create (params : dict) : t :=
  {| request_params := params; status := QUEUED; progress := 0;
     results_count := 0; error_message := None; started_at := None;
     completed_at := None |}.

Definition set_status (s : JobStatus) (j : t) : t :=
  {| request_params := request_params j; status := s; progress := progress j;
     results_count := results_count j; error_message := error_message j;
     started_at := started_at j; completed_at := completed_at j |}.

Definition set_progress (p : Z) (j : t) : t :=
  {| request_params := request_params j; status := status j; progress := p;
     results_count := results_count j; error_message := error_message j;
     started_at := started_at j; completed_at := completed_at j |}.

Definition set_results_count (n : Z) (j : t) : t :=
  {| request_params := request_params j; status := status j;
     progress := progress j; results_count := n;
     error_message := error_message j; started_at := started_at j;
     completed_at := completed_at j |}.

Definition set_error_message (m : string) (j : t) : t :=
  {| request_params := request_params j; status := status j;
     progress := progress j; results_count := results_count j;
     error_message := Some m; started_at := started_at j;
     completed_at := completed_at j |}.

Definition set_started_at (ts : nat) (j : t) : t :=
  {| request_params := request_params j; status := status j;
     progress := progress j; results_count := results_count j;
     error_message := error_message j; started_at := Some ts;
     completed_at := completed_at j |}.

Definition set_completed_at (ts : nat) (j : t) : t :=
  {| request_params := request_params j; status := status j;
     progress := progress j; results_count := results_count j;
     error_message := error_message j; started_at := started_at j;
     completed_at := Some ts |}.
End ScrapingJob.

(** A row of [leads]: the attribute values of the ORM object. *)
Module Lead.
Record t := {
  id : uuid;
  job_id : uuid;
  name : value;
  business_name : value;
  phone : value;
  email : value;
  website : value;
  address : value;
  industry : value;
  job_title : value;
  source_platform : PlatformType;
  source_url : value;
  enrichment_data : value;
  quality_score : value;
  completeness_score : value;
  confidence_score : value
}.

(** The four columns written by the enrichment update and by the scorer. *)
Definition set_scores (ed q c f : value) (l : t) : t :=
  {| id := id l; job_id := job_id l; name := name l;
     business_name := business_name l; phone := phone l; email := email l;
     website := website l; address := address l; industry := industry l;
     job_title := job_title l; source_platform := source_platform l;
     source_url := source_url l; enrichment_data := ed; quality_score := q;
     completeness_score := c; confidence_score := f |}.
End Lead.

(** A statement issued against a job row. *)
Inductive job_write :=
  | WStatus (s : JobStatus)
  | WProgress (p : Z)
  | WResultsCount (n : Z).

(** The database, the clock, the orchestrator's registry of active jobs,
    and the log of the statements issued against job rows. *)
Record World := {
  jobs : gmap uuid ScrapingJob.t;
  leads : list Lead.t;
  clock : nat;
  uuids : nat;
  active_jobs : gset uuid;
  job_writes : list (uuid * job_write)
}.

Definition with_jobs (f : gmap uuid ScrapingJob.t -> gmap uuid ScrapingJob.t)
    (w : World) : World :=
  {| jobs := f (jobs w); leads := leads w; clock := clock w; uuids := uuids w;
     active_jobs := active_jobs w; job_writes := job_writes w |}.

Definition with_leads (f : list Lead.t -> list Lead.t) (w : World) : World :=
  {| jobs := jobs w; leads := f (leads w); clock := clock w; uuids := uuids w;
     active_jobs := active_jobs w; job_writes := job_writes w |}.

Definition with_active_jobs (f : gset uuid -> gset uuid) (w : World) : World :=
  {| jobs := jobs w; leads := leads w; clock := clock w; uuids := uuids w;
     active_jobs := f (active_jobs w); job_writes := job_writes w |}.

Definition tick (w : World) : World :=
  {| jobs := jobs w; leads := leads w; clock := S (clock w); uuids := uuids w;
     active_jobs := active_jobs w; job_writes := job_writes w |}.

Definition take_uuids (n : nat) (w : World) : World :=
  {| jobs := jobs w; leads := leads w; clock := clock w; uuids := uuids w + n;
     active_jobs := active_jobs w; job_writes := job_writes w |}.

Definition log_write (job_id : uuid) (x : job_write) (w : World) : World :=
  {| jobs := jobs w; leads := leads w; clock := clock w; uuids := uuids w;
     active_jobs := active_jobs w;
     job_writes := job_writes w ++ [(job_id, x)] |}.

(** The statements that reach the database. *)
Inductive db_op :=
  | SelectJob
  | UpdateStatus (s : JobStatus)
  | UpdateProgress (p : Z)
  | InsertLeads
  | UpdateResultsCount
  | UpdateLead (i : nat)
  | CommitEnrichment
  | SelectLeads
  | CommitScores
  | CommitCancel
  | SessionCommit
  | UpdateStatusFailed.

(** The collaborators outside the pipeline, as they behave in one run:
    which statements the database rejects, what the discovery providers
    and the enrichment providers return or raise, and the UUIDs drawn. *)
Record Env := {
  db_fault : db_op -> option exn;
  google_maps_search :
    value -> value -> value -> value -> value -> result (list dict);
  google_business_search : value -> value -> value -> value -> result (list dict);
  enrich : Enrichment.enricher;
  uuid4 : nat -> uuid
}.

(* ===================================================================== *)
(** * Coroutines *)
(* ===================================================================== *)

(** A coroutine over the state: it has finished, with a value or an
    exception, or it runs one atomic segment and reaches its next
    suspension point. *)
Inductive task (A : Type) :=
  | Done (r : result A)
  | Step (f : World -> World * task A).
Arguments Done {A} r.
Arguments Step {A} f.

Module Task.

Definition ret {A} (a : A) : task A := Done (Ok a).
Definition raise {A} (e : exn) : task A := Done (Raise e).

Fixpoint bind {A B} (t : task A) (k : A -> task B) : task B :=
  match t with
  | Done (Ok a) => k a
  | Done (Raise e) => Done (Raise e)
  | Step f => Step (fun w => let '(w', t') := f w in (w', bind t' k))
  end.

(** [try: t  except Exception as e: h e] *)
Fixpoint try_except {A} (t : task A) (h : exn -> task A) : task A :=
  match t with
  | Done (Ok a) => Done (Ok a)
  | Done (Raise e) => h e
  | Step f => Step (fun w => let '(w', t') := f w in (w', try_except t' h))
  end.

(** [try: t  finally: cleanup], for a cleanup that does not suspend. *)
Fixpoint finally {A} (t : task A) (cleanup : World -> World) : task A :=
  match t with
  | Done r => Step (fun w => (cleanup w, Done r))
  | Step f => Step (fun w => let '(w', t') := f w in (w', finally t' cleanup))
  end.

(** An atomic action. *)
Definition act {A} (f : World -> World * result A) : task A :=
  Step (fun w => let '(w', r) := f w in (w', Done r)).

(** A computation that does not touch the state, awaited in one step. *)
Definition await {A} (r : result A) : task A := act (fun w => (w, r)).

(** Run a coroutine alone, to its end. *)
Fixpoint run {A} (t : task A) (w : World) : World * result A :=
  match t with
  | Done r => (w, r)
  | Step f => let '(w', t') := f w in run t' w'
  end.

(** Run the next segment of a coroutine. *)
Definition step {A} (t : task A) (w : World) : World * task A :=
  match t with
  | Done r => (w, Done r)
  | Step f => f w
  end.

Fixpoint steps {A} (n : nat) (t : task A) (w : World) : World * task A :=
  match n with
  | O => (w, t)
  | S n' => let '(w', t') := step t w in steps n' t' w'
  end.

End Task.

Declare Scope task_scope.
Delimit Scope task_scope with task.
Notation "x <- t ;; k" := (Task.bind t (fun x => k))
  (at level 100, t at next level, right associativity) : task_scope.
Notation "t ;;; k" := (Task.bind t (fun _ => k))
  (at level 100, right associativity) : task_scope.

(** [datetime.utcnow()] *)
Definition utcnow : task nat :=
  Task.act (fun w => (tick w, Ok (clock w))).

(** A statement followed by its commit: rejected as a whole, or applied. *)
Definition db {A} (env : Env) (op : db_op) (f : World -> World * A) : task A :=
  Task.act (fun w =>
    match db_fault env op with
    | Some e => (w, Raise e)
    | None => let '(w', a) := f w in (w', Ok a)
    end).

(* ===================================================================== *)
(** * orchestrator.py: the job pipeline *)
(* ===================================================================== *)

Module Orchestrator.

Definition max_concurrent_jobs : Z := 5.

(** [update(ScrapingJob).where(ScrapingJob.id == job_id).values(...)] *)
Definition update_job (job_id : uuid) (f : ScrapingJob.t -> ScrapingJob.t)
    (w : World) : World :=
  with_jobs (alter f job_id) w.

Definition opt_apply {A B} (f : A -> B -> B) (o : option A) (b : B) : B :=
  match o with Some a => f a b | None => b end.

Definition _update_job_status (env : Env) (job_id : uuid) (status : JobStatus)
    (error_message : option string) (started_at completed_at : option nat)
  : task unit :=
  db env (UpdateStatus status) (fun w =>
    (log_write job_id (WStatus status)
       (update_job job_id
          (fun j => opt_apply ScrapingJob.set_completed_at completed_at
                      (opt_apply ScrapingJob.set_started_at started_at
                         (opt_apply ScrapingJob.set_error_message error_message
                            (ScrapingJob.set_status status j)))) w), tt)).

Definition _update_job_progress (env : Env) (job_id : uuid) (progress : Z)
  : task unit :=
  db env (UpdateProgress progress) (fun w =>
    (log_write job_id (WProgress progress)
       (update_job job_id (ScrapingJob.set_progress progress) w), tt)).

(** [Lead(job_id=job_id, name=lead_data.get('name'), ...)], still without
    its primary key. *)
Definition new_lead (job_id : uuid) (lead_data : dict) : result (uuid -> Lead.t) :=
  (source_platform <-
     PlatformType_of (dict_get_default lead_data "source_platform"
                        (VStr (platform_value GOOGLE_MAPS))) ;;
   Ok (fun lead_id =>
     {| Lead.id := lead_id;
        Lead.job_id := job_id;
        Lead.name := dict_get lead_data "name";
        Lead.business_name := dict_get lead_data "business_name";
        Lead.phone := dict_get lead_data "phone";
        Lead.email := dict_get lead_data "email";
        Lead.website := dict_get lead_data "website";
        Lead.address := dict_get lead_data "address";
        Lead.industry := dict_get lead_data "industry";
        Lead.job_title := dict_get lead_data "job_title";
        Lead.source_platform := source_platform;
        Lead.source_url := dict_get lead_data "source_url";
        Lead.enrichment_data :=
          dict_get_default lead_data "enrichment_data" (VDict ∅);
        Lead.quality_score := dict_get_default lead_data "quality_score" (VInt 50);
        Lead.completeness_score := dict_get lead_data "completeness_score";
        Lead.confidence_score := dict_get lead_data "confidence_score" |}))%res.

Fixpoint new_leads (job_id : uuid) (leads_data : list dict)
  : result (list (uuid -> Lead.t)) :=
  match leads_data with
  | [] => Ok []
  | lead_data :: rest =>
      (l <- new_lead job_id lead_data ;;
       ls <- new_leads job_id rest ;;
       Ok (l :: ls))%res
  end.

Definition _save_leads (env : Env) (job_id : uuid) (leads_data : list dict)
  : task unit :=
  (leads <- Task.await (new_leads job_id leads_data) ;;
   db env InsertLeads (fun w =>
     (take_uuids (length leads)
        (with_leads (fun table =>
           table ++ imap (fun k mk => mk (uuid4 env (uuids w + k))) leads) w),
      tt)) ;;;
   db env UpdateResultsCount (fun w =>
     let n := Z.of_nat (length leads_data) in
     (log_write job_id (WResultsCount n)
        (update_job job_id (ScrapingJob.set_results_count n) w), tt)))%task.

(** [Lead.id == lead_data['id']] *)
Definition id_matches (v : value) (l : Lead.t) : bool :=
  match v with
  | VStr s => String.eqb s (Lead.id l)
  | _ => false
  end.

(** One [update(Lead).where(Lead.id == lead_data['id']).values(...)]. *)
Definition update_lead (lead_data : dict) (table : list Lead.t) : list Lead.t :=
  map (fun l =>
         if id_matches (dict_get lead_data "id") l
         then Lead.set_scores
                (dict_get_default lead_data "enrichment_data" (VDict ∅))
                (dict_get lead_data "quality_score")
                (dict_get lead_data "completeness_score")
                (dict_get lead_data "confidence_score") l
         else l) table.

Fixpoint update_leads_loop (env : Env) (i : nat) (enriched_leads : list dict)
  : task unit :=
  match enriched_leads with
  | [] => Task.ret tt
  | lead_data :: rest =>
      ((match lead_data !! "id" with
        | Some _ =>
            db env (UpdateLead i)
              (fun w => (with_leads (update_lead lead_data) w, tt))
        | None => Task.ret tt
        end) ;;;
       update_leads_loop env (S i) rest)%task
  end.

Definition _update_leads_enrichment (env : Env) (enriched_leads : list dict)
  : task unit :=
  (update_leads_loop env 0 enriched_leads ;;;
   db env CommitEnrichment (fun w => (w, tt)))%task.

(** [field and field.strip()], as a truth value. *)
Definition filled_field (field : value) : result bool :=
  if truthy field
  then (s <- str_method "strip" PyStr.strip field ;; Ok (truthy s))%res
  else Ok false.

(** [sum(1 for field in fields if field and field.strip())] *)
Fixpoint filled_fields (fields : list value) : result nat :=
  match fields with
  | [] => Ok O
  | field :: rest =>
      (b <- filled_field field ;;
       n <- filled_fields rest ;;
       Ok (if (b : bool) then S n else n))%res
  end.

(** The body of the loop of [_calculate_quality_scores], for one lead. *)
Definition score_lead (lead : Lead.t) : result Lead.t :=
  (let fields := [Lead.name lead; Lead.business_name lead; Lead.phone lead;
                  Lead.email lead; Lead.website lead; Lead.address lead] in
   filled <- filled_fields fields ;;
   let completeness_score :=
     (PyFloat.of_nat filled / PyFloat.of_nat (length fields))%float in
   quality_score <- PyFloat.int (completeness_score * 100)%float ;;
   quality_score <-
     (if truthy (Lead.enrichment_data lead)
      then (n <- py_len (Lead.enrichment_data lead) ;;
            let enrichment_bonus := Z.min (Z.of_nat n) 20 in
            Ok (Z.min 100 (quality_score + enrichment_bonus)))
      else Ok quality_score) ;;
   Ok (Lead.set_scores (Lead.enrichment_data lead)
         (VInt quality_score)
         (VFloat completeness_score)
         (VFloat (if Z.ltb 70 quality_score then 0.8 else 0.6)%float)
         lead))%res.

(** The loop over the leads of the job, in table order: the rows as the
    session holds them when the loop ends or is left by an exception. *)
Fixpoint score_rows (job_id : uuid) (table : list Lead.t)
  : list Lead.t * result unit :=
  match table with
  | [] => ([], Ok tt)
  | lead :: rest =>
      if String.eqb (Lead.job_id lead) job_id then
        match score_lead lead with
        | Ok lead' =>
            let '(rest', r) := score_rows job_id rest in (lead' :: rest', r)
        | Raise e => (lead :: rest, Raise e)
        end
      else
        let '(rest', r) := score_rows job_id rest in (lead :: rest', r)
  end.

Definition _calculate_quality_scores (env : Env) (job_id : uuid) : task unit :=
  (table <- db env SelectLeads (fun w => (w, leads w)) ;;
   match score_rows job_id table with
   | (table', Ok _) =>
       db env CommitScores (fun w => (with_leads (fun _ => table') w, tt))
   | (table', Raise e) =>
       Task.act (fun w => (with_leads (fun _ => table') w, Raise e))
   end)%task.

Definition _finalize_job (env : Env) (job_id : uuid) : task unit :=
  (now <- utcnow ;;
   _update_job_status env job_id COMPLETED None None (Some now))%task.

(** Iterating over a value ([for p in platforms]). *)
Definition py_iter (v : value) : result (list value) :=
  match v with
  | VList l => Ok l
  | VStr s => Ok (map (fun c => VStr (String c EmptyString)) (list_ascii_of_string s))
  | VDict d => Ok (map (fun kv => VStr (fst kv)) (map_to_list d))
  | _ => Raise (Exception "TypeError"
                  ("'" ++ type_name v ++ "' object is not iterable"))
  end.

Definition is_str (v : value) (s : string) : bool :=
  match v with VStr s' => String.eqb s' s | _ => false end.

(** [[PlatformType(p) for p in platforms if p != 'google_maps']] *)
Fixpoint enrichment_platforms (ps : list value) : result (list PlatformType) :=
  match ps with
  | [] => Ok []
  | p :: rest =>
      if is_str p (platform_value GOOGLE_MAPS) then enrichment_platforms rest
      else (x <- PlatformType_of p ;;
            xs <- enrichment_platforms rest ;;
            Ok (x :: xs))%res
  end.

(** [len(platforms) > 1 or intensity != ScrapingIntensity.BASIC.value] *)
Definition enrichment_enabled (platforms intensity : value) : result bool :=
  (n <- py_len platforms ;;
   Ok (Nat.ltb 1 n || negb (is_str intensity (intensity_value BASIC)))%bool)%res.

(** Stage 2 of [process_job], when enabled. *)
Definition enrichment_stage (env : Env) (job_id : uuid)
    (initial_leads : list dict) (platforms intensity : value) : task unit :=
  (enriched_leads <-
     Task.await
       (ps <- py_iter platforms ;;
        ps <- enrichment_platforms ps ;;
        i <- ScrapingIntensity_of intensity ;;
        Ok (fst (Enrichment.enrich_leads (enrich env) initial_leads ps i)))%res ;;
   _update_leads_enrichment env enriched_leads ;;;
   _update_job_progress env job_id 80)%task.

(** The body of the [try] of [process_job], after the job was found. *)
Definition pipeline (env : Env) (job_id : uuid) (job : ScrapingJob.t)
  : task unit :=
  (now <- utcnow ;;
   _update_job_status env job_id PROCESSING None (Some now) None ;;;
   let params := ScrapingJob.request_params job in
   _update_job_progress env job_id 10 ;;;
   initial_leads <-
     Task.await
       (Discovery.discover (google_maps_search env) (google_business_search env)
          (dict_get params "industry")
          (dict_get params "location")
          (dict_get_default params "radius" (VInt 25))
          (dict_get_default params "max_results" (VInt 100))
          (dict_get_default params "keywords" (VList []))
          (dict_get params "job_title")) ;;
   _update_job_progress env job_id 30 ;;;
   _save_leads env job_id initial_leads ;;;
   _update_job_progress env job_id 40 ;;;
   let platforms :=
     dict_get_default params "platforms"
       (VList [VStr (platform_value GOOGLE_MAPS)]) in
   let intensity :=
     dict_get_default params "intensity" (VStr (intensity_value STANDARD)) in
   enabled <- Task.await (enrichment_enabled platforms intensity) ;;
   (if (enabled : bool)
    then enrichment_stage env job_id initial_leads platforms intensity
    else Task.ret tt) ;;;
   _calculate_quality_scores env job_id ;;;
   _update_job_progress env job_id 90 ;;;
   _finalize_job env job_id ;;;
   _update_job_progress env job_id 100)%task.

(** The [except Exception as e] clause of [process_job]. *)
Definition on_failure (env : Env) (job_id : uuid) (e : exn) : task unit :=
  (now <- utcnow ;;
   _update_job_status env job_id FAILED (Some (exn_str e)) None (Some now))%task.

(** [async with get_db_session() as session: body]: the session commits
    when the body returns and re-raises what the body raises. *)
Definition with_session {A} (env : Env) (body : task A) : task A :=
  (r <- body ;; db env SessionCommit (fun w => (w, tt)) ;;; Task.ret r)%task.

(** The [try] block of [process_job]. *)
Definition try_body (env : Env) (job_id : uuid) : task unit :=
  (job <- db env SelectJob (fun w => (w, jobs w !! job_id)) ;;
   match job with
   | None => Task.ret tt                       (* "Job not found": return *)
   | Some job => pipeline env job_id job
   end)%task.

Definition process_job (env : Env) (job_id : uuid) : task unit :=
  with_session env
    (Task.finally
       (Task.try_except (try_body env job_id) (on_failure env job_id))
       (with_active_jobs (fun a => a ∖ {[ job_id ]}))).

(** [cancel_job] of the orchestrator: only a job of the registry. *)
Definition cancel_job (env : Env) (job_id : uuid) : task bool :=
  (registered <- Task.act (fun w => (w, Ok (bool_decide (job_id ∈ active_jobs w)))) ;;
   if (registered : bool) then
     with_session env
       (now <- utcnow ;;
        _update_job_status env job_id CANCELLED None None (Some now)) ;;;
     Task.act (fun w => (with_active_jobs (fun a => a ∖ {[ job_id ]}) w, Ok true))
   else Task.ret false)%task.

(** [health_check]: the number of registered jobs and the configured
    maximum. *)
Definition health_check (w : World) : Z * Z :=
  (Z.of_nat (size (active_jobs w)), max_concurrent_jobs).

End Orchestrator.

(* ===================================================================== *)
(** * routes.py: the cancellation route *)
(* ===================================================================== *)

Module Routes.

Definition terminal (s : JobStatus) : bool :=
  match s with
  | COMPLETED | FAILED | CANCELLED => true
  | QUEUED | PROCESSING => false
  end.

(** [job.status = CANCELLED; job.completed_at = utcnow(); db.commit()] *)
Definition mark_cancelled (now : nat) (j : ScrapingJob.t) : ScrapingJob.t :=
  ScrapingJob.set_completed_at now (ScrapingJob.set_status CANCELLED j).

Definition not_found_detail (job_id : uuid) : string :=
  "Job " ++ job_id ++ " not found".

Definition terminal_detail (s : JobStatus) : string :=
  "Cannot cancel job with status: " ++ status_value s.

Definition cancelled_message (job_id : uuid) : string :=
  "Job " ++ job_id ++ " cancelled successfully".

Definition failure_detail (e : exn) : string :=
  "Failed to cancel job: " ++ exn_str e.

(** [DELETE /jobs/{job_id}] *)
Definition cancel_job (env : Env) (job_id : uuid) : task string :=
  Task.try_except
    (job <- db env SelectJob (fun w => (w, jobs w !! job_id)) ;;
     match job with
     | None =>
         Task.raise (HTTPException 404 (not_found_detail job_id))
     | Some job =>
         if terminal (ScrapingJob.status job) then
           Task.raise
             (HTTPException 400 (terminal_detail (ScrapingJob.status job)))
         else
           (now <- utcnow ;;
            db env CommitCancel (fun w =>
              (log_write job_id (WStatus CANCELLED)
                 (Orchestrator.update_job job_id (mark_cancelled now) w), tt)) ;;;
            Task.ret (cancelled_message job_id))
     end)%task
    (fun e =>
       match e with
       | HTTPException _ _ => Task.raise e
       | Exception _ _ =>
           Task.raise (HTTPException 500 (failure_detail e))
       end).

End Routes.

(* ===================================================================== *)
(** * scraping_tasks.py: the Celery wrapper of the pipeline *)
(* ===================================================================== *)

Module Tasks.




End Tasks.

(* ===================================================================== *)
(** * Coroutines running together on one event loop *)
(* ===================================================================== *)

Module Loop.

(** Let the [i]-th coroutine of the pool run to its next suspension. *)
Definition step_nth {A} (i : nat) (pool : list (task A)) (w : World)
  : list (task A) * World :=
  match pool !! i with
  | Some t => let '(w', t') := Task.step t w in (<[i := t']> pool, w')
  | None => (pool, w)
  end.

Fixpoint run_schedule {A} (schedule : list nat) (pool : list (task A))
    (w : World) : list (task A) * World :=
  match schedule with
  | [] => (pool, w)
  | i :: rest => let '(pool', w') := step_nth i pool w in run_schedule rest pool' w'
  end.

(** The number of jobs whose status is Processing. *)
Definition processing_count (w : World) : nat :=
  size (filter (fun kv => ScrapingJob.status (snd kv) = PROCESSING) (jobs w)).

End Loop.


(* ===================================================================== *)
(** * Notions used in the statements, and sample data *)
(* ===================================================================== *)

Module Spec.
Import Discovery Enrichment Orchestrator Loop.

(** [first_wins] for the records from position [n] on, [allkeys] being the
    keys of the whole sequence. *)
Definition kept_from (n : nat) (allkeys : list ident) (leads : list dict) : list dict :=
  (filter (λ p : nat * dict, kept_at allkeys p.1 = true)
          (imap (λ i x, (n + i, x)%nat) leads)).*2.

(** Sample records: a bakery, the same bakery listed again with other
    capitals and blanks, a cafe, and a record without name and phone. *)
Definition bakery : dict :=
  {[ "business_name" := VStr "Bakery One"; "phone" := VStr "555-0100" ]}.

Definition bakery_again : dict :=
  {[ "business_name" := VStr "  BAKERY one "; "phone" := VStr "555-0100 ";
     "name" := VStr "Second listing" ]}.

Definition cafe : dict :=
  {[ "business_name" := VStr "Cafe"; "phone" := VStr "555-0101" ]}.

Definition contactless : dict := {[ "name" := VStr "Walk-in customer" ]}.

(** A column holds a non-blank string. *)
Definition nonblank (v : value) : bool :=
  match v with
  | VStr s => negb (String.eqb (PyStr.strip s) "")
  | _ => false
  end.

(** A column on which [field and field.strip()] is defined: a string, or
    a false value. *)
Definition strippable (v : value) : bool :=
  match v with
  | VStr _ => true
  | _ => negb (truthy v)
  end.

(** A value on which [if v: ... len(v)] is defined. *)
Definition sized_or_false (v : value) : bool :=
  match v with
  | VStr _ | VList _ | VDict _ => true
  | _ => negb (truthy v)
  end.

(** The six columns the final scorer looks at. *)
Definition six_fields (lead : Lead.t) : list value :=
  [Lead.name lead; Lead.business_name lead; Lead.phone lead;
   Lead.email lead; Lead.website lead; Lead.address lead].

(** [len(enrichment_data)] when the bonus branch is taken, [0] otherwise. *)
Definition bonus_count (ed : value) : nat :=
  if truthy ed then match py_len ed with Ok n => n | Raise _ => O end else O.

(** The quality score of the incremental scorer in integer arithmetic:
    the integral part of [100 * f / 6 + 10 * n], at most 100. *)
Definition quality_formula (f n : nat) : Z :=
  Z.min 100 ((100 * Z.of_nat f + 60 * Z.of_nat n) / 6).

Definition quality_agrees (f n : nat) : bool :=
  match Enrichment.enrichment_quality f n with
  | Ok q => Z.eqb q (quality_formula f n)
  | Raise _ => false
  end.

(** The values taken by [min(0.95, 0.6 + n * 0.1)]. *)
Definition confidence_steps (n : nat) : float :=
  match n with
  | 0%nat => 0.6 | 1%nat => 0.7 | 2%nat => 0.8 | 3%nat => 0.9 | _ => 0.95
  end%float.

(** A stored lead with three of the six fields and one enriched platform,
    and the same lead as a dictionary. *)
Definition half_filled_row : Lead.t :=
  {| Lead.id := "lead-1"; Lead.job_id := "job-1";
     Lead.name := VStr "Ann"; Lead.business_name := VStr "Bakery One";
     Lead.phone := VStr "555-0100"; Lead.email := VNone;
     Lead.website := VNone; Lead.address := VNone; Lead.industry := VNone;
     Lead.job_title := VNone; Lead.source_platform := GOOGLE_MAPS;
     Lead.source_url := VNone;
     Lead.enrichment_data := VDict {[ "linkedin" := VDict ∅ ]};
     Lead.quality_score := VInt 50; Lead.completeness_score := VNone;
     Lead.confidence_score := VNone |}.

Definition half_filled_lead : dict :=
  {[ "name" := VStr "Ann"; "business_name" := VStr "Bakery One";
     "phone" := VStr "555-0100";
     "enrichment_data" := VDict {[ "linkedin" := VDict ∅ ]} ]}.

(** The single scorer of the specification (section 4.3): completeness
    with the enrichment bonus, quality as its rounded percentage plus one
    point per platform. *)
Definition claimed_completeness (filled platforms : nat) : float :=
  PyFloat.min 1.0
    (PyFloat.of_nat filled / PyFloat.of_nat 6 + 0.1 * PyFloat.of_nat platforms)%float.

Definition claimed_quality (filled platforms : nat) : result Z :=
  (q <- PyFloat.round (claimed_completeness filled platforms * 100)%float ;;
   Ok (Z.min 100 (q + Z.min (Z.of_nat platforms) 20)))%res.

Definition confidence_agrees (n : nat) : bool :=
  PrimFloat.Leibniz.eqb (Enrichment.enrichment_confidence n) (confidence_steps n).

(** A stored lead with five of the six fields and no enrichment data. *)
Definition full_row : Lead.t :=
  {| Lead.id := "lead-2"; Lead.job_id := "job-1";
     Lead.name := VStr "Bo"; Lead.business_name := VStr "Cafe";
     Lead.phone := VStr "555-0101"; Lead.email := VStr "bo@cafe.example";
     Lead.website := VStr "https://cafe.example"; Lead.address := VNone;
     Lead.industry := VNone; Lead.job_title := VNone;
     Lead.source_platform := GOOGLE_MAPS; Lead.source_url := VNone;
     Lead.enrichment_data := VDict ∅;
     Lead.quality_score := VInt 50; Lead.completeness_score := VNone;
     Lead.confidence_score := VNone |}.


(** What the batch at offset [i] leaves in the trace. *)
Definition batch_events {A} (leads : list A) (c : nat) (i : nat) : list event :=
  [EvGather (seq i (length (slice leads i (i + c)))); EvSleep 1].



(** One iteration of the loop over the platforms. *)
Definition platform_step (enrich : enricher) (lead_no call_no : nat)
    (lead : dict) (cfg : config) (platform : PlatformType)
    (enrichment_data : value) : value :=
  if has_enricher platform then
    match enrich lead_no call_no platform (lead_view lead enrichment_data)
            (fields cfg) (depth cfg) with
    | Ok platform_data =>
        match py_setitem enrichment_data (platform_value platform) platform_data with
        | Ok ed => ed
        | Raise _ => enrichment_data
        end
    | Raise _ => enrichment_data
    end
  else enrichment_data.

(** A lead as discovery returns it, without enrichment data. *)
Definition discovered : dict :=
  {[ "name" := VStr "Ann"; "business_name" := VStr "Bakery One";
     "phone" := VStr "555-0100" ]}.

(** LinkedIn answers, Facebook raises. *)
Definition flaky : enricher :=
  fun _ _ p _ _ _ =>
    match p with
    | FACEBOOK => Raise (Exception "TimeoutError" "facebook timed out")
    | _ => Ok (VDict {[ "profile_url" := VStr "https://example.org/ann" ]})
    end.

(** Induction on a coroutine: the hypothesis covers what follows each
    segment, in every state. *)
Fixpoint task_induction {A} (P : task A → Prop)
    (HDone : ∀ r, P (Done r))
    (HStep : ∀ f, (∀ w, P (snd (f w))) → P (Step f))
    (t : task A) : P t :=
  match t with
  | Done r => HDone r
  | Step f =>
      HStep f (fun w =>
        match f w as p return P (snd p) with
        | (_, t') => task_induction P HDone HStep t'
        end)
  end.




(** The progress values among the statements of a log, in order. *)
Definition progress_of (ws : list (uuid * job_write)) : list Z :=
  omap (fun e => match snd e with WProgress p => Some p | _ => None end) ws.

(** The progress value written after the enrichment stage, when the
    request enables that stage. *)
Definition stage_progress (job : ScrapingJob.t) : list Z :=
  let params := ScrapingJob.request_params job in
  match enrichment_enabled
          (dict_get_default params "platforms"
             (VList [VStr (platform_value GOOGLE_MAPS)]))
          (dict_get_default params "intensity" (VStr (intensity_value STANDARD)))
  with
  | Ok true => [80]
  | _ => []
  end.

(** The progress values of a run of the pipeline that reaches its end. *)
Definition expected_progress (job : ScrapingJob.t) : list Z :=
  10 :: 30 :: 40 :: stage_progress job ++ [90; 100].

(** The coroutine [t] appends to the log statements against job [j] only;
    their progress values are an initial part of [ps], and all of [ps]
    when [t] returns. *)
Definition emits {A} (j : uuid) (ps : list Z) (t : task A) : Prop :=
  ∀ w, ∃ new,
    job_writes (fst (Task.run t w)) = job_writes w ++ new
    ∧ Forall (fun e => fst e = j) new
    ∧ progress_of new `prefix_of` ps
    ∧ (is_ok (snd (Task.run t w)) = true → progress_of new = ps).

(** The statements a coroutine adds to the log in state [w]: against job
    [j] only, with progress values forming an initial part of [ps]. *)
Definition emits_at {A} (j : uuid) (ps : list Z) (t : task A) (w : World) : Prop :=
  ∃ new,
    job_writes (fst (Task.run t w)) = job_writes w ++ new
    ∧ Forall (fun e => fst e = j) new
    ∧ progress_of new `prefix_of` ps.

(** What the first statement of the pipeline stores in the job row. *)
Definition mark_processing (now : nat) (j : ScrapingJob.t) : ScrapingJob.t :=
  ScrapingJob.set_started_at now (ScrapingJob.set_status PROCESSING j).

(** Every coroutine of the pool, in turn, runs its first three segments. *)
Definition start_schedule (n : nat) : list nat :=
  flat_map (fun k => [k; k; k]) (seq 0 n).

(** Two requests: two platforms at premium intensity (the enrichment stage
    runs), and the primary platform alone at basic intensity (it does
    not). *)
Definition bakery_request : dict :=
  {[ "industry" := VStr "bakery"; "location" := VStr "Boston, MA";
     "max_results" := VInt 10;
     "platforms" := VList [VStr "google_maps"; VStr "linkedin"];
     "intensity" := VStr "premium" ]}.

Definition basic_request : dict :=
  {[ "industry" := VStr "bakery"; "location" := VStr "Boston, MA";
     "max_results" := VInt 10;
     "platforms" := VList [VStr "google_maps"];
     "intensity" := VStr "basic" ]}.

(** What the primary discovery source returns in the sample runs. *)
Definition found : list dict :=
  [ {[ "name" := VStr "Ann"; "business_name" := VStr "Bakery One";
       "phone" := VStr "555-0100"; "source_platform" := VStr "google_maps" ]};
    {[ "name" := VStr "Bo"; "business_name" := VStr "Cafe";
       "phone" := VStr "555-0101"; "email" := VStr "bo@cafe.example";
       "source_platform" := VStr "google_maps" ]} ].

(** Every collaborator answers. *)
Definition env_ok : Env :=
  {| db_fault := fun _ => None;
     google_maps_search := fun _ _ _ _ _ => Ok found;
     google_business_search := fun _ _ _ _ => Ok [];
     enrich := fun _ _ _ _ _ _ => Ok (VDict {[ "profile_url" := VStr "u" ]});
     uuid4 := fun n => String (ascii_of_nat (97 + n)) EmptyString |}.

(** The bulk insert of the leads is rejected. *)
Definition env_insert_fails : Env :=
  {| db_fault := fun op =>
       match op with
       | InsertLeads => Some (Exception "OperationalError" "connection lost")
       | _ => None
       end;
     google_maps_search := google_maps_search env_ok;
     google_business_search := google_business_search env_ok;
     enrich := enrich env_ok;
     uuid4 := uuid4 env_ok |}.

(** Sample states: the given jobs, no lead, the clock at 100. *)
Definition world_of (js : list (uuid * ScrapingJob.t)) : World :=
  {| jobs := list_to_map js; leads := []; clock := 100; uuids := 0;
     active_jobs := ∅; job_writes := [] |}.

Definition one_job : World := world_of [("job-1", ScrapingJob.create bakery_request)].

Definition basic_job : World := world_of [("job-1", ScrapingJob.create basic_request)].

Definition six_ids : list uuid :=
  ["job-1"; "job-2"; "job-3"; "job-4"; "job-5"; "job-6"].

Definition six_jobs : World :=
  world_of (map (fun j => (j, ScrapingJob.create basic_request)) six_ids).

Definition done_job : ScrapingJob.t :=
  ScrapingJob.set_completed_at 90
    (ScrapingJob.set_status COMPLETED (ScrapingJob.create basic_request)).

Definition two_jobs : World :=
  world_of [("job-done", done_job); ("job-queued", ScrapingJob.create basic_request)].

End Spec.


(* ===================================================================== *)
(** * Properties *)
(* ===================================================================== *)

Module DiscoveryFacts.

Import Discovery Spec.




Lemma kept_from_0 keys leads : kept_from 0 keys leads = first_wins leads keys.
Proof. reflexivity. Qed.




End DiscoveryFacts.

Module DiscoveryClaims.

Import Discovery DiscoveryFacts Spec.



Example dedup_sample :
  _deduplicate_leads [bakery; contactless; cafe; bakery_again] = Ok [bakery; cafe].
Proof. vm_compute. reflexivity. Qed.



End DiscoveryClaims.

Module ScorerFacts.

Import Orchestrator Spec.

Lemma strip_empty : PyStr.strip "" = "".
Proof. reflexivity. Qed.

Lemma filled_field_nonblank v b : filled_field v = Ok b → b = nonblank v.
Proof.
  unfold filled_field. destruct v; cbn; try (intros [= <-]; reflexivity);
    try (destruct (negb _); cbn; [discriminate|intros [= <-]; reflexivity]).
  destruct (String.eqb s "") eqn:E; cbn.
  - intros [= <-]. apply String.eqb_eq in E. subst s. reflexivity.
  - intros [= <-]. reflexivity.
Qed.

Lemma filled_field_total v : strippable v = true → filled_field v = Ok (nonblank v).
Proof.
  unfold filled_field.
  destruct v as [|s| | | |];
    try (cbn [strippable nonblank]; intros ->%negb_true_iff; reflexivity).
  intros _. cbn. destruct (String.eqb s "") eqn:E; cbn; [|reflexivity].
  apply String.eqb_eq in E. subst s. reflexivity.
Qed.

Lemma filled_fields_count fs n :
  filled_fields fs = Ok n → n = length (List.filter nonblank fs).
Proof.
  revert n. induction fs as [|v fs IH]; intros n; cbn.
  - by intros [= <-].
  - destruct (filled_field v) as [b|] eqn:Hb; cbn; [|discriminate].
    destruct (filled_fields fs) as [m|]; cbn; [|discriminate].
    apply filled_field_nonblank in Hb. subst b. intros [= <-].
    rewrite (IH m eq_refl). by destruct (nonblank v).
Qed.

Lemma filled_fields_total fs :
  forallb strippable fs = true →
  filled_fields fs = Ok (length (List.filter nonblank fs)).
Proof.
  induction fs as [|v fs IH]; cbn; [done|].
  intros [Hv Hfs]%andb_true_iff. rewrite (filled_field_total v Hv), (IH Hfs). cbn.
  by destruct (nonblank v).
Qed.

Lemma filter_length_le {A} (p : A → bool) l :
  (length (List.filter p l) ≤ length l)%nat.
Proof. induction l as [|x l IH]; cbn; [lia|]. destruct (p x); cbn; lia. Qed.

(** [int(filled / 6 * 100)] on binary64, for the seven possible counts. *)
Lemma int_base_completeness (f : nat) :
  (f ≤ 6)%nat →
  PyFloat.int (PyFloat.of_nat f / PyFloat.of_nat 6 * 100)%float
  = Ok (100 * Z.of_nat f / 6).
Proof.
  intros Hf.
  do 7 (destruct f as [|f]; [vm_compute; reflexivity|]). lia.
Qed.

Lemma quality_table :
  forallb (fun f => forallb (quality_agrees f) (seq 0 1001)) (seq 0 7) = true.
Proof. vm_compute. reflexivity. Qed.

(** [int(total_completeness * 100)] on binary64 agrees with the integer
    formula for up to a thousand entries of enrichment data. *)
Lemma enrichment_quality_exact (f n : nat) :
  (f ≤ 6)%nat → (n ≤ 1000)%nat →
  Enrichment.enrichment_quality f n = Ok (quality_formula f n).
Proof.
  intros Hf Hn. pose proof quality_table as H.
  rewrite forallb_forall in H. specialize (H f).
  rewrite forallb_forall in H. specialize (H ltac:(apply in_seq; lia) n ltac:(apply in_seq; lia)).
  unfold quality_agrees in H. destruct (Enrichment.enrichment_quality f n); [|discriminate].
  apply Z.eqb_eq in H. by subst.
Qed.

Lemma filled_base_le lead : (Enrichment.filled_base lead ≤ 6)%nat.
Proof. unfold Enrichment.filled_base. apply filter_length_le. Qed.

End ScorerFacts.

Module ScorerClaims.

Import Orchestrator ScorerFacts Spec.

Lemma score_lead_returns (row : Lead.t) :
  forallb strippable (six_fields row) = true →
  sized_or_false (Lead.enrichment_data row) = true →
  let f := length (List.filter nonblank (six_fields row)) in
  let q := Z.min 100 (100 * Z.of_nat f / 6
                      + Z.min (Z.of_nat (bonus_count (Lead.enrichment_data row))) 20) in
  score_lead row
  = Ok (Lead.set_scores (Lead.enrichment_data row) (VInt q)
          (VFloat (PyFloat.of_nat f / PyFloat.of_nat 6))
          (VFloat (if Z.ltb 70 q then 0.8 else 0.6)) row).
Proof.
  intros Hf Hed f q. unfold score_lead.
  fold (six_fields row). rewrite (filled_fields_total _ Hf). cbn [rbind].
  fold f. change (length (six_fields row)) with 6%nat.
  assert (Hf6 : (f ≤ 6)%nat) by apply (filter_length_le nonblank (six_fields row)).
  rewrite (int_base_completeness f Hf6). cbn [rbind].
  assert (Hq0 : (0 ≤ 100 * Z.of_nat f / 6 ≤ 100)%Z).
  { split; [apply Z.div_pos; lia|]. apply Z.div_le_upper_bound; lia. }
  subst q. unfold bonus_count.
  destruct (truthy (Lead.enrichment_data row)) eqn:Ht.
  - destruct (Lead.enrichment_data row) as [|s| | |l|d]; cbn in Hed, Ht |- *;
      try discriminate; try (rewrite Ht in Hed; discriminate); reflexivity.
  - cbn [rbind]. rewrite Z.add_0_r, (Z.min_r 100) by lia. reflexivity.
Qed.

Lemma enrichment_scores_return (lead : dict) (n : nat) :
  py_len (dict_get_default lead "enrichment_data" (VDict ∅)) = Ok n →
  (n ≤ 1000)%nat →
  let f := Enrichment.filled_base lead in
  Enrichment._calculate_enrichment_scores lead
  = Ok ({[ "quality_score" := VInt (quality_formula f n);
           "completeness_score" := VFloat (Enrichment.total_completeness f n);
           "confidence_score" := VFloat (Enrichment.enrichment_confidence n) ]}).
Proof.
  intros Hlen Hn f. unfold Enrichment._calculate_enrichment_scores.
  rewrite Hlen. cbn [rbind]. fold f.
  rewrite (enrichment_quality_exact f n (filled_base_le lead) Hn). reflexivity.
Qed.

(** C4, as amended: the two scorers compute two different formulas. The
    final scorer takes completeness to be the share of the six fields
    that hold a non-blank string, without any enrichment bonus, and the
    quality score to be that share as a truncated percentage plus one
    point per enrichment entry, at most twenty, capped at 100. The
    incremental scorer takes completeness to be the share of true fields
    plus 0.1 per enrichment entry, capped at 1.0, and the quality score to
    be that completeness as a truncated percentage, without point bonus. *)
Theorem scorers_compute_two_formulas (row : Lead.t) (lead : dict) (n : nat) :
  forallb strippable (six_fields row) = true →
  sized_or_false (Lead.enrichment_data row) = true →
  py_len (dict_get_default lead "enrichment_data" (VDict ∅)) = Ok n →
  (n ≤ 1000)%nat →
  (∃ row', score_lead row = Ok row' ∧
     let f := length (List.filter nonblank (six_fields row)) in
     let k := bonus_count (Lead.enrichment_data row) in
     Lead.completeness_score row'
       = VFloat (PyFloat.of_nat f / PyFloat.of_nat 6) ∧
     Lead.quality_score row'
       = VInt (Z.min 100 (100 * Z.of_nat f / 6 + Z.min (Z.of_nat k) 20)))
  ∧
  (∃ scores, Enrichment._calculate_enrichment_scores lead = Ok scores ∧
     let f := Enrichment.filled_base lead in
     scores !! "completeness_score"
       = Some (VFloat (PyFloat.min 1.0
                 (PyFloat.of_nat f / PyFloat.of_nat 6 + PyFloat.of_nat n * 0.1))) ∧
     scores !! "quality_score"
       = Some (VInt (Z.min 100 ((100 * Z.of_nat f + 60 * Z.of_nat n) / 6)))).
Proof.
  intros Hf Hed Hlen Hn. split.
  - eexists. split; [apply (score_lead_returns row Hf Hed)|]. split; reflexivity.
  - eexists. split; [apply (enrichment_scores_return lead n Hlen Hn)|].
    split; reflexivity.
Qed.

Lemma scorers_compute_two_formulas_witness :
  (∃ row', score_lead half_filled_row = Ok row' ∧
     Lead.completeness_score row' = VFloat 0.5 ∧
     Lead.quality_score row' = VInt 51)
  ∧
  (∃ scores, Enrichment._calculate_enrichment_scores half_filled_lead = Ok scores ∧
     scores !! "completeness_score" = Some (VFloat 0.6) ∧
     scores !! "quality_score" = Some (VInt 60)).
Proof.
  exact (scorers_compute_two_formulas half_filled_row half_filled_lead 1
           eq_refl eq_refl eq_refl ltac:(lia)).
Defined.

(** With three of the six fields filled and one enriched platform the
    claim asks for completeness 0.6 and quality 61; the final scorer
    stores 0.5 and 51, the incremental scorer 0.6 and 60. *)
Lemma no_scorer_computes_the_claimed_formula :
  claimed_completeness 3 1 = 0.6%float ∧ claimed_quality 3 1 = Ok 61 ∧
  ¬ (∀ row', score_lead half_filled_row = Ok row' →
       Lead.completeness_score row' = VFloat (claimed_completeness 3 1) ∧
       Ok (Lead.quality_score row') = (q <- claimed_quality 3 1 ;; Ok (VInt q))%res) ∧
  ¬ (∀ scores,
       Enrichment._calculate_enrichment_scores half_filled_lead = Ok scores →
       Ok (scores !! "quality_score")
       = (q <- claimed_quality 3 1 ;; Ok (Some (VInt q)))%res).
Proof.
  split; [vm_compute; reflexivity|]. split; [vm_compute; reflexivity|]. split.
  - intros H. destruct (H _ eq_refl) as [_ Hq]. vm_compute in Hq. discriminate.
  - intros H. specialize (H _ eq_refl). vm_compute in H. discriminate.
Qed.

End ScorerClaims.

Module ConfidenceClaims.

Import Orchestrator ScorerFacts Spec.

Lemma enrichment_scores_shape (lead scores : dict) :
  Enrichment._calculate_enrichment_scores lead = Ok scores →
  ∃ n q, py_len (dict_get_default lead "enrichment_data" (VDict ∅)) = Ok n ∧
    scores = {[ "quality_score" := VInt q;
                "completeness_score" :=
                  VFloat (Enrichment.total_completeness
                            (Enrichment.filled_base lead) n);
                "confidence_score" :=
                  VFloat (Enrichment.enrichment_confidence n) ]}.
Proof.
  unfold Enrichment._calculate_enrichment_scores.
  destruct (py_len _) as [n|] eqn:Hn; cbn [rbind]; [|discriminate].
  destruct (Enrichment.enrichment_quality _ n) as [q|]; cbn [rbind]; [|discriminate].
  intros [= <-]. by exists n, q.
Qed.

Lemma single_lead_confidence enrich i (lead : dict) ps cfg (lead' : dict) :
  Enrichment._enrich_single_lead enrich i lead ps cfg = Ok lead' →
  ∃ n, py_len (dict_get lead' "enrichment_data") = Ok n ∧
       lead' !! "confidence_score"
       = Some (VFloat (PyFloat.min 0.95 (0.6 + PyFloat.of_nat n * 0.1))).
Proof.
  unfold Enrichment._enrich_single_lead.
  set (ed := Enrichment.enrich_platforms _ _ _ _ _ _ _).
  destruct (Enrichment._calculate_enrichment_scores _) as [scores|] eqn:Hs;
    cbn [rbind]; [|discriminate].
  intros [= <-].
  apply enrichment_scores_shape in Hs as (n & q & Hn & ->).
  unfold dict_get_default in Hn. rewrite lookup_insert_eq in Hn. cbn in Hn.
  exists n. split.
  - unfold dict_get. rewrite lookup_union_r, lookup_insert_eq; done.
  - apply lookup_union_Some_l. reflexivity.
Qed.

Lemma confidence_table : forallb confidence_agrees (seq 0 1001) = true.
Proof. vm_compute. reflexivity. Qed.

Lemma enrichment_confidence_steps (n : nat) :
  (n ≤ 1000)%nat → Enrichment.enrichment_confidence n = confidence_steps n.
Proof.
  intros Hn. pose proof confidence_table as H. rewrite forallb_forall in H.
  specialize (H n ltac:(apply in_seq; lia)). by apply FloatAxioms.Leibniz.eqb_spec.
Qed.

(** C5: the final scorer stores confidence 0.8 when the quality score it
    has just recomputed exceeds 70 and 0.6 otherwise; the incremental
    scorer, and with it every lead returned by the enrichment of a
    single lead, stores min(0.95, 0.6 + 0.1 * n) for n entries of
    enrichment data, which is 0.6, 0.7, 0.8, 0.9 and then 0.95. *)
Theorem confidence_by_stage (row : Lead.t) (lead : dict) (n : nat) :
  forallb strippable (six_fields row) = true →
  sized_or_false (Lead.enrichment_data row) = true →
  py_len (dict_get_default lead "enrichment_data" (VDict ∅)) = Ok n →
  (n ≤ 1000)%nat →
  (∃ row' q, score_lead row = Ok row' ∧
     Lead.quality_score row' = VInt q ∧
     Lead.confidence_score row' = VFloat (if Z.ltb 70 q then 0.8 else 0.6))
  ∧
  (∃ scores, Enrichment._calculate_enrichment_scores lead = Ok scores ∧
     scores !! "confidence_score"
       = Some (VFloat (PyFloat.min 0.95 (0.6 + PyFloat.of_nat n * 0.1))) ∧
     PyFloat.min 0.95 (0.6 + PyFloat.of_nat n * 0.1) = confidence_steps n)
  ∧
  (∀ enrich i ps cfg lead',
     Enrichment._enrich_single_lead enrich i lead ps cfg = Ok lead' →
     ∃ m, py_len (dict_get lead' "enrichment_data") = Ok m ∧
          lead' !! "confidence_score"
          = Some (VFloat (PyFloat.min 0.95 (0.6 + PyFloat.of_nat m * 0.1)))).
Proof.
  intros Hf Hed Hlen Hn. split; [|split].
  - eexists _, _. split; [apply (ScorerClaims.score_lead_returns row Hf Hed)|].
    split; reflexivity.
  - eexists. split; [apply (ScorerClaims.enrichment_scores_return lead n Hlen Hn)|].
    split; [reflexivity|]. apply (enrichment_confidence_steps n Hn).
  - intros enrich i ps cfg lead'. apply single_lead_confidence.
Qed.

Lemma confidence_by_stage_witness :
  (∃ row' q, score_lead full_row = Ok row' ∧
     Lead.quality_score row' = VInt q ∧
     Lead.confidence_score row' = VFloat (if Z.ltb 70 q then 0.8 else 0.6))
  ∧ (∃ scores,
       Enrichment._calculate_enrichment_scores half_filled_lead
       = Ok scores ∧
       scores !! "confidence_score"
       = Some (VFloat (PyFloat.min 0.95 (0.6 + PyFloat.of_nat 1 * 0.1))) ∧
       PyFloat.min 0.95 (0.6 + PyFloat.of_nat 1 * 0.1) = 0.7%float).
Proof.
  pose proof (confidence_by_stage full_row half_filled_lead 1
                eq_refl eq_refl eq_refl ltac:(lia)) as (H1 & H2 & _).
  exact (conj H1 H2).
Defined.

Example final_confidence_of_full_row :
  (λ r, (Lead.quality_score r, Lead.confidence_score r)) <$> (match score_lead full_row with Ok r => Some r | _ => None end)
  = Some (VInt 83, VFloat 0.8).
Proof. vm_compute. reflexivity. Qed.

End ConfidenceClaims.

Module EnrichmentFacts.

Import Enrichment Spec.

Lemma slice_take_drop {A} (l : list A) i c : slice l i (i + c) = take c (drop i l).
Proof. unfold slice. f_equal. lia. Qed.

Lemma successful_app {A} (l1 l2 : list (result A)) :
  successful (l1 ++ l2) = successful l1 ++ successful l2.
Proof. apply omap_app. Qed.

Lemma enrich_batches_spec enrich leads ps cfg offsets acc tr :
  enrich_batches enrich leads ps cfg offsets acc tr
  = (acc ++ concat (map (fun i => successful (batch_results enrich leads ps cfg i)) offsets),
     tr ++ concat (map (batch_events leads (concurrent_requests cfg)) offsets)).
Proof.
  revert acc tr. induction offsets as [|i rest IH]; intros acc tr.
  - cbn. by rewrite !app_nil_r.
  - cbn [enrich_batches map concat]. rewrite IH. unfold batch_events.
    replace (length (batch_results enrich leads ps cfg i))
      with (length (slice leads i (i + concurrent_requests cfg)))
      by (unfold batch_results; by rewrite length_imap).
    by rewrite <- !app_assoc.
Qed.

Lemma range_from_concat {A B} (f : nat → list A → list B) (g : nat → list A → list B)
    (l : list A) (c : nat) :
  (0 < c)%nat →
  (∀ i, (i < length l)%nat → g i (drop i l) = f i (take c (drop i l)) ++ g (i + c)%nat (drop (i + c) l)) →
  (∀ i, (length l ≤ i)%nat → g i (drop i l) = []) →
  ∀ fuel start, (length l - start ≤ fuel)%nat →
  concat (map (fun i => f i (slice l i (i + c))) (range_from fuel start (length l) c))
  = g start (drop start l).
Proof.
  intros Hc Hstep Hend. induction fuel as [|fuel IH]; intros start Hfuel;
    cbn [range_from].
  - cbn. rewrite Hend; [done|lia].
  - destruct (Nat.ltb_spec start (length l)) as [Hlt|Hge]; cbn [map concat].
    + rewrite slice_take_drop, IH by lia. by rewrite (Hstep start Hlt).
    + by rewrite Hend.
Qed.


Lemma imap_take_drop {A B} (F : nat → A → B) (l : list A) i c :
  imap (fun k => F (i + k)%nat) (drop i l)
  = imap (fun k => F (i + k)%nat) (take c (drop i l))
    ++ imap (fun k => F (i + c + k)%nat) (drop (i + c) l).
Proof.
  rewrite <- (take_drop c (drop i l)) at 1. rewrite imap_app, drop_drop.
  f_equal. destruct (decide (c ≤ length (drop i l))%nat) as [Hle|Hgt].
  - rewrite length_take, Nat.min_l by lia. apply imap_ext. intros k x _. cbn.
    f_equal. lia.
  - rewrite (drop_ge l (i + c)); [done|]. rewrite length_drop in Hgt. lia.
Qed.

Lemma concat_batch_results enrich (leads : list dict) ps cfg :
  (0 < concurrent_requests cfg)%nat →
  concat (map (batch_results enrich leads ps cfg)
              (py_range (length leads) (concurrent_requests cfg)))
  = imap (fun i lead => _enrich_single_lead enrich i lead ps cfg) leads.
Proof.
  intros Hc. unfold py_range, batch_results.
  rewrite (range_from_concat
             (fun i b => imap (fun k lead => _enrich_single_lead enrich (i + k) lead ps cfg) b)
             (fun i r => imap (fun k lead => _enrich_single_lead enrich (i + k) lead ps cfg) r)
             leads _ Hc); [done| | |lia].
  - intros i _.
    apply (imap_take_drop (fun n lead => _enrich_single_lead enrich n lead ps cfg)).
  - intros i Hi. by rewrite drop_ge.
Qed.

Lemma successful_concat {A} (ls : list (list (result A))) :
  successful (concat ls) = concat (map successful ls).
Proof.
  induction ls as [|l ls IH]; [done|].
  cbn [concat map]. by rewrite successful_app, IH.
Qed.

Lemma concurrent_requests_pos intensity :
  (0 < concurrent_requests (intensity_configs intensity))%nat.
Proof. destruct intensity; cbn; lia. Qed.

(** The list returned by [enrich_leads]: the dictionaries among the
    results of the per-lead coroutines, in the order of the leads. *)
Lemma enrich_leads_returns enrich leads ps intensity :
  fst (enrich_leads enrich leads ps intensity)
  = successful (imap (fun i lead =>
                        _enrich_single_lead enrich i lead ps
                          (intensity_configs intensity)) leads).
Proof.
  unfold enrich_leads. rewrite enrich_batches_spec. cbn [fst app].
  rewrite <- (concat_batch_results enrich leads ps (intensity_configs intensity)
                (concurrent_requests_pos intensity)).
  rewrite successful_concat, map_map. reflexivity.
Qed.





End EnrichmentFacts.

Module EnrichmentClaims.

Import Enrichment EnrichmentFacts Spec.



End EnrichmentClaims.

Module IsolationFacts.

Import Enrichment EnrichmentFacts ScorerFacts Spec.

Lemma enrich_platforms_cons enrich i c lead p ps cfg ed :
  enrich_platforms enrich i c lead (p :: ps) cfg ed
  = enrich_platforms enrich i (S c) lead ps cfg
      (platform_step enrich i c lead cfg p ed).
Proof.
  cbn [enrich_platforms]. unfold platform_step. f_equal.
  destruct (has_enricher p); [|done].
  by destruct (enrich i c p _ _ _).
Qed.

Lemma enrich_platforms_app enrich i lead cfg ps1 : ∀ c ps2 ed,
  enrich_platforms enrich i c lead (ps1 ++ ps2) cfg ed
  = enrich_platforms enrich i (c + length ps1) lead ps2 cfg
      (enrich_platforms enrich i c lead ps1 cfg ed).
Proof.
  induction ps1 as [|p ps1 IH]; intros c ps2 ed.
  - cbn. by rewrite Nat.add_0_r.
  - rewrite <- app_comm_cons, !enrich_platforms_cons, IH. cbn [length].
    by rewrite Nat.add_succ_r.
Qed.

Lemma platform_step_dict enrich i c lead cfg p (d : dict) :
  ∃ d' : dict, platform_step enrich i c lead cfg p (VDict d) = VDict d'
        ∧ (size d' ≤ S (size d))%nat.
Proof.
  unfold platform_step. destruct (has_enricher p); [|exists d; split; [done|lia]].
  destruct (enrich i c p _ _ _) as [x|]; [|exists d; split; [done|lia]].
  cbn. eexists. split; [done|].
  destruct (d !! platform_value p) eqn:E.
  - rewrite map_size_insert_Some; [lia|done].
  - rewrite map_size_insert_None; [lia|done].
Qed.

Lemma enrich_platforms_dict enrich i lead cfg ps : ∀ c (d : dict),
  ∃ d' : dict, enrich_platforms enrich i c lead ps cfg (VDict d) = VDict d'
        ∧ (size d' ≤ size d + length ps)%nat.
Proof.
  induction ps as [|p ps IH]; intros c d.
  - exists d. split; [done|cbn; lia].
  - rewrite enrich_platforms_cons.
    destruct (platform_step_dict enrich i c lead cfg p d) as (d1 & -> & H1).
    destruct (IH (S c) d1) as (d' & -> & H'). exists d'. split; [done|cbn; lia].
Qed.

(** A lead whose enrichment data is a dictionary comes back as a
    dictionary, whatever the providers do. *)
Lemma enrich_single_lead_returns enrich i (lead : dict) ps cfg (d0 : dict) :
  dict_get_default lead "enrichment_data" (VDict ∅) = VDict d0 →
  (size d0 + length ps ≤ 1000)%nat →
  ∃ lead' : dict,
    _enrich_single_lead enrich i lead ps cfg = Ok lead' ∧
    lead' !! "enrichment_data"
    = Some (enrich_platforms enrich i 0 lead ps cfg (VDict d0)).
Proof.
  intros Hed Hsize. unfold _enrich_single_lead. rewrite Hed.
  destruct (enrich_platforms_dict enrich i lead cfg ps 0%nat d0) as (d' & Hd' & Hle).
  rewrite Hd'.
  rewrite (ScorerClaims.enrichment_scores_return _ (size d')); cycle 1.
  { unfold dict_get_default. by rewrite lookup_insert_eq. }
  { lia. }
  cbn [rbind]. eexists. split; [done|].
  rewrite lookup_union_r, lookup_insert_eq; done.
Qed.

(** The result of one lead depends on the provider calls made for that
    lead only. *)
Lemma enrich_platforms_ext enrich enrich' i lead cfg ps : ∀ c ed,
  (∀ j p v f dp, enrich' i j p v f dp = enrich i j p v f dp) →
  enrich_platforms enrich' i c lead ps cfg ed
  = enrich_platforms enrich i c lead ps cfg ed.
Proof.
  intros c ed H. revert c ed. induction ps as [|p ps IH]; intros c ed; [done|].
  cbn [enrich_platforms]. rewrite H. apply IH.
Qed.

Lemma enrich_single_lead_ext enrich enrich' i lead ps cfg :
  (∀ j p v f dp, enrich' i j p v f dp = enrich i j p v f dp) →
  _enrich_single_lead enrich' i lead ps cfg = _enrich_single_lead enrich i lead ps cfg.
Proof.
  intros H. unfold _enrich_single_lead. by rewrite (enrich_platforms_ext enrich enrich').
Qed.

Lemma elem_of_successful {A} (results : list (result A)) (a : A) :
  a ∈ successful results ↔ Ok a ∈ results.
Proof.
  unfold successful. rewrite list_elem_of_omap. split.
  - intros ([b|e] & Hin & Heq); [|done]. by simplify_eq.
  - intros Hin. exists (Ok a). done.
Qed.

End IsolationFacts.

Module IsolationClaims.

Import Enrichment EnrichmentFacts IsolationFacts Spec.

(** C8: a provider call that raises leaves the enrichment data as it was
    and the loop goes on with the remaining platforms; a call that
    returns adds exactly the entry of its platform; the lead comes back
    as a dictionary carrying what the loop gathered; and the dictionary
    returned for a lead is in the output of [enrich_leads] whatever the
    provider calls of the other leads do, raising included. *)
Theorem enrichment_failures_are_isolated (enrich : enricher) (i : nat)
    (lead : dict) (ps1 : list PlatformType) (p : PlatformType)
    (ps2 : list PlatformType) (cfg : config) (d0 : dict) :
  dict_get_default lead "enrichment_data" (VDict ∅) = VDict d0 →
  (size d0 + length (ps1 ++ p :: ps2) ≤ 1000)%nat →
  let ed1 := enrich_platforms enrich i 0 lead ps1 cfg (VDict d0) in
  let call := enrich i (length ps1) p (lead_view lead ed1) (fields cfg) (depth cfg) in
  let all := enrich_platforms enrich i 0 lead (ps1 ++ p :: ps2) cfg (VDict d0) in
  let rest := enrich_platforms enrich i (S (length ps1)) lead ps2 cfg in
  (∀ e, call = Raise e → all = rest ed1)
  ∧ (∀ x d1, call = Ok x → has_enricher p = true → ed1 = VDict d1 →
        all = rest (VDict (<[platform_value p := x]> d1)))
  ∧ (∃ lead' : dict,
        _enrich_single_lead enrich i lead (ps1 ++ p :: ps2) cfg = Ok lead' ∧
        lead' !! "enrichment_data" = Some all)
  ∧ (∀ (leads : list dict) ps intensity (enrich' : enricher) k sibling (d : dict),
        leads !! k = Some sibling →
        (∀ j q v f dp, enrich' k j q v f dp = enrich k j q v f dp) →
        _enrich_single_lead enrich k sibling ps (intensity_configs intensity) = Ok d →
        d ∈ fst (enrich_leads enrich' leads ps intensity)).
Proof.
  intros Hed Hsize ed1 call all rest.
  assert (Hall : all = rest (platform_step enrich i (length ps1) lead cfg p ed1)).
  { unfold all, rest, ed1. by rewrite enrich_platforms_app, enrich_platforms_cons. }
  split; [|split; [|split]].
  - intros e He. rewrite Hall. f_equal. unfold platform_step. fold call.
    rewrite He. by destruct (has_enricher p).
  - intros x d1 Hx Hp Hd1. rewrite Hall. f_equal. unfold platform_step.
    fold call. by rewrite Hp, Hx, Hd1.
  - apply (enrich_single_lead_returns enrich i lead _ cfg d0 Hed Hsize).
  - intros leads ps intensity enrich' k sibling d Hk Hext Hd.
    rewrite enrich_leads_returns. apply elem_of_successful.
    apply elem_of_lookup_imap. exists k, sibling. split; [|done].
    by rewrite (enrich_single_lead_ext enrich enrich').
Qed.

Lemma enrichment_failures_are_isolated_witness :
  dict_get_default discovered "enrichment_data" (VDict ∅) = VDict ∅ ∧
  ∃ lead' : dict,
    _enrich_single_lead flaky 0 discovered ([LINKEDIN] ++ FACEBOOK :: [INSTAGRAM])
      (intensity_configs STANDARD) = Ok lead' ∧
    lead' !! "enrichment_data"
    = Some (enrich_platforms flaky 0 0 discovered
              ([LINKEDIN] ++ FACEBOOK :: [INSTAGRAM])
              (intensity_configs STANDARD) (VDict ∅)).
Proof.
  split; [reflexivity|].
  exact (proj1 (proj2 (proj2
           (enrichment_failures_are_isolated flaky 0 discovered [LINKEDIN]
              FACEBOOK [INSTAGRAM] (intensity_configs STANDARD) ∅ eq_refl
              ltac:(vm_compute; lia))))).
Defined.

Example facebook_failure_keeps_the_other_platforms :
  (fun d => map fst (map_to_list d)) <$>
    (match enrich_platforms flaky 0 0 discovered [LINKEDIN; FACEBOOK; INSTAGRAM]
             (intensity_configs STANDARD) (VDict ∅) with
     | VDict d => Some d | _ => None end)
  = Some ["instagram"; "linkedin"].
Proof. vm_compute. reflexivity. Qed.

End IsolationClaims.

Module TaskFacts.

Import Spec.

Lemma run_bind {A B} (t : task A) (k : A → task B) w :
  Task.run (Task.bind t k) w
  = match Task.run t w with
    | (w', Ok a) => Task.run (k a) w'
    | (w', Raise e) => (w', Raise e)
    end.
Proof.
  revert w. induction t as [[a|e]|f IH] using task_induction; intros w; cbn;
    [done|done|].
  specialize (IH w). destruct (f w) as [w' t']. apply IH.
Qed.

Lemma run_try_except {A} (t : task A) (h : exn → task A) w :
  Task.run (Task.try_except t h) w
  = match Task.run t w with
    | (w', Ok a) => (w', Ok a)
    | (w', Raise e) => Task.run (h e) w'
    end.
Proof.
  revert w. induction t as [[a|e]|f IH] using task_induction; intros w; cbn;
    [done|by destruct (Task.run (h e) w)|].
  specialize (IH w). destruct (f w) as [w' t']. apply IH.
Qed.

Lemma run_finally {A} (t : task A) (cleanup : World → World) w :
  Task.run (Task.finally t cleanup) w
  = (cleanup (fst (Task.run t w)), snd (Task.run t w)).
Proof.
  revert w. induction t as [r|f IH] using task_induction; intros w; cbn;
    [done|].
  specialize (IH w). destruct (f w) as [w' t']. apply IH.
Qed.

Lemma run_act {A} (f : World → World * result A) w :
  Task.run (Task.act f) w = f w.
Proof. cbn. by destruct (f w). Qed.

Lemma run_ret {A} (a : A) w : Task.run (Task.ret a) w = (w, Ok a).
Proof. reflexivity. Qed.

Lemma run_await {A} (r : result A) w : Task.run (Task.await r) w = (w, r).
Proof. reflexivity. Qed.

Lemma run_db {A} env op (f : World → World * A) w :
  Task.run (db env op f) w
  = match db_fault env op with
    | Some e => (w, Raise e)
    | None => (fst (f w), Ok (snd (f w)))
    end.
Proof.
  unfold db. rewrite run_act. destruct (db_fault env op); [done|].
  by destruct (f w).
Qed.

Lemma run_utcnow w : Task.run utcnow w = (tick w, Ok (clock w)).
Proof. reflexivity. Qed.

End TaskFacts.

Module StoreFacts.

Import Orchestrator TaskFacts Spec.








End StoreFacts.

Module OmissionClaims.

Import Orchestrator TaskFacts StoreFacts Spec.


End OmissionClaims.

Module ProgressFacts.

Import Orchestrator TaskFacts Spec.

Lemma progress_of_app l1 l2 :
  progress_of (l1 ++ l2) = progress_of l1 ++ progress_of l2.
Proof. apply omap_app. Qed.

Lemma emits_ret {A} j (a : A) : emits j [] (Task.ret a).
Proof. intros w. exists []. cbn. by rewrite app_nil_r. Qed.

Lemma emits_raise {A} j ps (e : exn) : emits j ps (@Task.raise A e).
Proof.
  intros w. exists []. cbn. rewrite app_nil_r.
  repeat split; [constructor|apply prefix_nil|done].
Qed.

Lemma emits_bind {A B} j ps1 ps2 (t : task A) (k : A → task B) :
  emits j ps1 t → (∀ a, emits j ps2 (k a)) → emits j (ps1 ++ ps2) (Task.bind t k).
Proof.
  intros Ht Hk w. rewrite run_bind.
  destruct (Ht w) as (new1 & Hw1 & Hj1 & Hp1 & Hok1).
  destruct (Task.run t w) as [w1 [a|e]]; cbn [fst snd] in *.
  - destruct (Hk a w1) as (new2 & Hw2 & Hj2 & Hp2 & Hok2).
    exists (new1 ++ new2). rewrite Hw2, Hw1, app_assoc, progress_of_app.
    rewrite (Hok1 eq_refl).
    repeat split; [by apply Forall_app|by apply prefix_app|].
    intros Hok. by rewrite (Hok2 Hok).
  - exists new1. repeat split; [done|done|by apply prefix_app_r|done].
Qed.

Lemma emits_await_bind {A B} j ps (r : result A) (k : A → task B) :
  (∀ a, r = Ok a → emits j ps (k a)) → emits j ps (Task.bind (Task.await r) k).
Proof.
  intros Hk w. rewrite run_bind, run_await. destruct r as [a|e].
  - by apply Hk.
  - exists []. cbn. rewrite app_nil_r.
    repeat split; [constructor|apply prefix_nil|done].
Qed.

Lemma emits_db {A} j ps env op (f : World → World * A) :
  (∀ w, ∃ new, job_writes (fst (f w)) = job_writes w ++ new
               ∧ Forall (fun e => fst e = j) new ∧ progress_of new = ps) →
  emits j ps (db env op f).
Proof.
  intros Hf w. rewrite run_db. destruct (db_fault env op); cbn [fst snd].
  - exists []. rewrite app_nil_r.
    repeat split; [constructor|apply prefix_nil|done].
  - destruct (Hf w) as (new & Hw & Hj & Hp). exists new. by rewrite Hp.
Qed.

Lemma emits_silent_act {A} j ps (f : World → World * result A) :
  (∀ w, job_writes (fst (f w)) = job_writes w) →
  (∀ w, is_ok (snd (f w)) = true → ps = []) →
  emits j ps (Task.act f).
Proof.
  intros Hf Hps w. rewrite run_act. exists []. rewrite Hf, app_nil_r.
  repeat split; [constructor|apply prefix_nil|].
  intros Hok. by rewrite (Hps w Hok).
Qed.

Lemma emits_utcnow j : emits j [] utcnow.
Proof. by apply emits_silent_act. Qed.

Lemma emits_update_job_status env j s m st ct :
  emits j [] (_update_job_status env j s m st ct).
Proof. apply emits_db. intros w. exists [(j, WStatus s)]. by repeat constructor. Qed.

Lemma emits_update_job_progress env j p :
  emits j [p] (_update_job_progress env j p).
Proof. apply emits_db. intros w. exists [(j, WProgress p)]. by repeat constructor. Qed.

Lemma emits_save_leads env j leads_data : emits j [] (_save_leads env j leads_data).
Proof.
  unfold _save_leads. apply emits_await_bind. intros mk _.
  apply (emits_bind j [] []).
  - apply emits_db. intros w. exists []. cbn. by rewrite app_nil_r.
  - intros _. apply emits_db. intros w. eexists [(j, WResultsCount _)].
    by repeat constructor.
Qed.

Lemma emits_update_leads_loop env j enriched : ∀ i,
  emits j [] (update_leads_loop env i enriched).
Proof.
  induction enriched as [|d rest IH]; intros i; [apply emits_ret|].
  cbn [update_leads_loop]. apply (emits_bind j [] []); [|intros _; apply IH].
  destruct (d !! "id"); [|apply emits_ret].
  apply emits_db. intros w. exists []. cbn. by rewrite app_nil_r.
Qed.

Lemma emits_update_leads_enrichment env j enriched :
  emits j [] (_update_leads_enrichment env enriched).
Proof.
  apply (emits_bind j [] []); [apply emits_update_leads_loop|].
  intros _. apply emits_db. intros w. exists []. cbn. by rewrite app_nil_r.
Qed.

Lemma emits_calculate_quality_scores env j :
  emits j [] (_calculate_quality_scores env j).
Proof.
  apply (emits_bind j [] []).
  - apply emits_db. intros w. exists []. cbn. by rewrite app_nil_r.
  - intros table. destruct (score_rows j table) as [table' [[]|e]].
    + apply emits_db. intros w. exists []. cbn. by rewrite app_nil_r.
    + by apply emits_silent_act.
Qed.

Lemma emits_finalize_job env j : emits j [] (_finalize_job env j).
Proof.
  apply (emits_bind j [] []); [apply emits_utcnow|].
  intros now. apply emits_update_job_status.
Qed.

Lemma emits_enrichment_stage env j initial_leads platforms intensity :
  emits j [80] (enrichment_stage env j initial_leads platforms intensity).
Proof.
  unfold enrichment_stage. apply emits_await_bind. intros enriched _.
  apply (emits_bind j [] [80]); [apply emits_update_leads_enrichment|].
  intros _. apply emits_update_job_progress.
Qed.

Lemma emits_pipeline env j job : emits j (expected_progress job) (pipeline env j job).
Proof.
  unfold pipeline, expected_progress.
  apply (emits_bind j [] _); [apply emits_utcnow|]. intros now.
  apply (emits_bind j [] _); [apply emits_update_job_status|]. intros _.
  apply (emits_bind j [10] _); [apply emits_update_job_progress|]. intros _.
  apply emits_await_bind. intros initial_leads _.
  apply (emits_bind j [30] _); [apply emits_update_job_progress|]. intros _.
  apply (emits_bind j [] _); [apply emits_save_leads|]. intros _.
  apply (emits_bind j [40] _); [apply emits_update_job_progress|]. intros _.
  apply emits_await_bind. intros enabled Henabled.
  apply (emits_bind j (stage_progress job) [90; 100]).
  { unfold stage_progress. rewrite Henabled. destruct enabled.
    - apply emits_enrichment_stage.
    - apply emits_ret. }
  intros _.
  apply (emits_bind j [] [90; 100]); [apply emits_calculate_quality_scores|]. intros _.
  apply (emits_bind j [90] [100]); [apply emits_update_job_progress|]. intros _.
  apply (emits_bind j [] [100]); [apply emits_finalize_job|]. intros _.
  apply emits_update_job_progress.
Qed.

Lemma expected_progress_cases job :
  expected_progress job = [10; 30; 40; 80; 90; 100]
  ∨ expected_progress job = [10; 30; 40; 90; 100].
Proof.
  unfold expected_progress, stage_progress.
  destruct (enrichment_enabled _ _) as [[]|]; cbn; auto.
Qed.

Lemma expected_progress_sorted job : StronglySorted Z.le (expected_progress job).
Proof.
  destruct (expected_progress_cases job) as [-> | ->];
    repeat (constructor; [|repeat constructor; lia]); constructor.
Qed.

End ProgressFacts.

Module ProgressClaims.

Import Orchestrator TaskFacts ProgressFacts Spec.

Lemma emits_emits_at {A} j ps (t : task A) w : emits j ps t → emits_at j ps t w.
Proof. intros H. destruct (H w) as (new & ? & ? & ? & _). by exists new. Qed.

Lemma emits_on_failure env j e : emits j [] (on_failure env j e).
Proof.
  apply (emits_bind j [] []); [apply emits_utcnow|].
  intros now. apply emits_update_job_status.
Qed.

Lemma emits_at_try_body env j w :
  emits_at j (from_option expected_progress [] (jobs w !! j)) (try_body env j) w.
Proof.
  unfold emits_at, try_body. rewrite run_bind, run_db.
  destruct (db_fault env SelectJob); cbn [fst snd].
  - exists []. rewrite app_nil_r. repeat split; [constructor|apply prefix_nil].
  - destruct (jobs w !! j) as [job|]; cbn [from_option].
    + apply (emits_emits_at j _ _ w (emits_pipeline env j job)).
    + exists []. cbn. rewrite app_nil_r. repeat split; [constructor|apply prefix_nil].
Qed.

Lemma emits_at_process_job env j w :
  emits_at j (from_option expected_progress [] (jobs w !! j)) (process_job env j) w.
Proof.
  destruct (emits_at_try_body env j w) as (new1 & Hw1 & Hj1 & Hp1).
  unfold emits_at, process_job, with_session.
  rewrite run_bind, run_finally, run_try_except.
  destruct (Task.run (try_body env j) w) as [w1 [[]|e]]; cbn [fst snd] in *.
  - rewrite run_bind, run_db.
    exists new1. destruct (db_fault env SessionCommit); cbn; by rewrite Hw1.
  - destruct (emits_on_failure env j e w1) as (new2 & Hw2 & Hj2 & Hp2 & _).
    apply prefix_nil_inv in Hp2.
    exists (new1 ++ new2). rewrite progress_of_app, Hp2, app_nil_r.
    assert (job_writes (with_active_jobs (λ a, a ∖ {[j]})
                          (fst (Task.run (on_failure env j e) w1)))
            = job_writes w ++ new1 ++ new2) as Hlog
      by (unfold with_active_jobs; cbn [job_writes];
          by rewrite Hw2, Hw1, app_assoc).
    destruct (Task.run (on_failure env j e) w1) as [w2 [[]|e2]]; cbn [fst snd] in *.
    + rewrite run_bind, run_db.
      destruct (db_fault env SessionCommit); cbn;
        (split; [exact Hlog|split; [by apply Forall_app|done]]).
    + split; [exact Hlog|split; [by apply Forall_app|done]].
Qed.

(** C9: whatever the collaborators do, one execution of [process_job]
    writes against its own job only, and the progress values it writes,
    in order, are an initial part of 10, 30, 40, 80 (when the request
    enables the enrichment stage), 90, 100: a non-decreasing sequence. *)
Theorem progress_never_decreases (env : Env) (job_id : uuid) (w : World) :
  let nominal := from_option expected_progress [] (jobs w !! job_id) in
  ∃ new,
    job_writes (fst (Task.run (process_job env job_id) w)) = job_writes w ++ new
    ∧ Forall (fun e => fst e = job_id) new
    ∧ progress_of new `prefix_of` nominal
    ∧ (nominal = [] ∨ nominal = [10; 30; 40; 80; 90; 100]
       ∨ nominal = [10; 30; 40; 90; 100])
    ∧ StronglySorted Z.le (progress_of new).
Proof.
  intros nominal.
  destruct (emits_at_process_job env job_id w) as (new & Hw & Hj & Hp).
  fold nominal in Hp.
  assert (Hsorted : StronglySorted Z.le nominal).
  { unfold nominal. destruct (jobs w !! job_id); cbn;
      [apply expected_progress_sorted|constructor]. }
  exists new. repeat split; [done|done|done| |].
  - unfold nominal. destruct (jobs w !! job_id) as [job|]; cbn; [|by left].
    right. apply expected_progress_cases.
  - destruct Hp as [k Hk]. rewrite Hk in Hsorted.
    by apply StronglySorted_app_1_l in Hsorted.
Qed.

End ProgressClaims.

Module FailureFacts.

Import Orchestrator TaskFacts Spec.




End FailureFacts.

Module FailureClaims.

Import Orchestrator TaskFacts FailureFacts Spec.


End FailureClaims.

Module CancelClaims.

Import Orchestrator TaskFacts Spec.

(** The orchestrator's own [cancel_job] acts on registered jobs only: for
    a job that is not in [active_jobs] it returns [False] and writes
    nothing. *)
Lemma orchestrator_cancel_unregistered env job_id w :
  job_id ∉ active_jobs w →
  Task.run (Orchestrator.cancel_job env job_id) w = (w, Ok false).
Proof.
  intros Hnot. unfold Orchestrator.cancel_job. rewrite run_bind, run_act.
  by rewrite bool_decide_eq_false_2.
Qed.

(** C6: for a stored job, the cancellation route answers a job that is
    Completed, Failed or Cancelled with a 400 error whose detail names
    that status, and changes nothing; it answers a Queued or Processing
    job with success, having stored status Cancelled and the completion
    time, and leaves the other jobs as they were. *)
Theorem cancel_route_by_status (env : Env) (job_id : uuid) (w : World)
    (job : ScrapingJob.t) :
  jobs w !! job_id = Some job →
  db_fault env SelectJob = None →
  db_fault env CommitCancel = None →
  let st := ScrapingJob.status job in
  let '(w', r) := Task.run (Routes.cancel_job env job_id) w in
  (st ∈ [COMPLETED; FAILED; CANCELLED] →
     r = Raise (HTTPException 400
                  ("Cannot cancel job with status: " ++ status_value st))
     ∧ w' = w)
  ∧ (st ∈ [QUEUED; PROCESSING] →
     r = Ok (Routes.cancelled_message job_id)
     ∧ (∃ job', jobs w' !! job_id = Some job'
                ∧ ScrapingJob.status job' = CANCELLED
                ∧ ScrapingJob.completed_at job' = Some (clock w))
     ∧ (∀ other, other ≠ job_id → jobs w' !! other = jobs w !! other)
     ∧ leads w' = leads w).
Proof.
  intros Hjob Hsel Hcommit st.
  unfold Routes.cancel_job. rewrite run_try_except, run_bind, run_db, Hsel.
  cbn [fst snd]. rewrite Hjob. fold st.
  destruct st eqn:Hst; cbn [Routes.terminal].
  1,2: rewrite run_bind, run_utcnow, run_bind, run_db, Hcommit, run_ret;
       cbn [fst snd]; split;
       [intros Hin; repeat (apply elem_of_cons in Hin as [Hin|Hin]; [discriminate|]);
        by apply elem_of_nil in Hin|];
       intros _; split; [done|]; split;
       [eexists; split; [cbn; rewrite lookup_alter_eq, Hjob; reflexivity|done]|];
       split; [intros other Hne; cbn; by rewrite lookup_alter_ne|done].
  all: cbn; split; [done|];
       intros Hin; repeat (apply elem_of_cons in Hin as [Hin|Hin]; [discriminate|]);
       by apply elem_of_nil in Hin.
Qed.

End CancelClaims.

Module LoopFacts.

Import Orchestrator TaskFacts Loop Spec.

(** The first three segments of [process_job]: the job is read, the clock
    is read, status Processing is stored. Nothing else is looked at. *)
Lemma process_job_starts env j w job :
  db_fault env SelectJob = None →
  db_fault env (UpdateStatus PROCESSING) = None →
  jobs w !! j = Some job →
  ∃ t',
    Task.steps 3 (process_job env j) w
    = (log_write j (WStatus PROCESSING)
         (update_job j (mark_processing (clock w)) (tick w)), t').
Proof.
  intros Hsel Hupd Hjob. eexists.
  unfold process_job, with_session, try_body, pipeline, db, utcnow,
    _update_job_status, db.
  cbn. rewrite Hsel. cbn. rewrite Hjob. cbn. rewrite Hupd. cbn.
  reflexivity.
Qed.

Lemma run_schedule_app {A} s1 s2 (pool : list (task A)) w :
  run_schedule (s1 ++ s2) pool w
  = let '(pool', w') := run_schedule s1 pool w in run_schedule s2 pool' w'.
Proof.
  revert pool w. induction s1 as [|i s1 IH]; intros pool w; [done|].
  cbn. destruct (step_nth i pool w) as [pool' w']. apply IH.
Qed.

Lemma run_schedule_thrice {A} k (pool : list (task A)) w t :
  pool !! k = Some t →
  run_schedule [k; k; k] pool w
  = (<[k := snd (Task.steps 3 t w)]> pool, fst (Task.steps 3 t w)).
Proof.
  intros Hk. assert (Hlt : (k < length pool)%nat) by by eapply lookup_lt_Some.
  cbn [run_schedule]. unfold step_nth. rewrite Hk. cbn [Task.steps].
  destruct (Task.step t w) as [w1 t1].
  rewrite list_lookup_insert_eq by done.
  destruct (Task.step t1 w1) as [w2 t2].
  rewrite list_lookup_insert_eq by (by rewrite length_insert).
  destruct (Task.step t2 w2) as [w3 t3]. cbn [fst snd].
  by rewrite !list_insert_insert_eq.
Qed.

End LoopFacts.

Module LoopClaims.

Import Orchestrator TaskFacts Loop LoopFacts Spec.

Lemma start_schedule_S n : start_schedule (S n) = start_schedule n ++ [n; n; n].
Proof. unfold start_schedule. by rewrite seq_S, flat_map_app. Qed.

Lemma start_invariant env (ids : list uuid) w :
  db_fault env SelectJob = None →
  db_fault env (UpdateStatus PROCESSING) = None →
  NoDup ids →
  (∀ j, j ∈ ids → is_Some (jobs w !! j)) →
  ∀ m, (m ≤ length ids)%nat →
  let '(pool_m, w_m) :=
    run_schedule (start_schedule m) (process_job env <$> ids) w in
  (∀ k, (m ≤ k)%nat → pool_m !! k = (process_job env <$> ids) !! k)
  ∧ (∀ j, is_Some (jobs w_m !! j) ↔ is_Some (jobs w !! j))
  ∧ (∀ j, j ∈ take m ids →
          ScrapingJob.status <$> jobs w_m !! j = Some PROCESSING).
Proof.
  intros Hsel Hupd Hnd Hin. induction m as [|m IH]; intros Hm.
  - cbn. split; [done|]. split; [done|]. intros j Hj. by apply elem_of_nil in Hj.
  - rewrite start_schedule_S, run_schedule_app.
    specialize (IH ltac:(lia)).
    destruct (run_schedule (start_schedule m) _ w) as [pool_m w_m].
    destruct IH as (Hpool & Hdom & Hproc).
    destruct (lookup_lt_is_Some_2 ids m ltac:(lia)) as [j Hj].
    assert (Hpm : pool_m !! m = Some (process_job env j))
      by (by rewrite Hpool, list_lookup_fmap, Hj).
    rewrite (run_schedule_thrice m pool_m w_m _ Hpm).
    assert (is_Some (jobs w_m !! j)) as [job Hjob].
    { apply Hdom, Hin. by eapply list_elem_of_lookup_2. }
    destruct (process_job_starts env j w_m job Hsel Hupd Hjob) as [t' ->].
    cbn [fst snd]. split; [|split].
    + intros k Hk. rewrite list_lookup_insert_ne by lia. apply Hpool. lia.
    + intros j'. rewrite <- Hdom. cbn.
      destruct (decide (j = j')) as [<-|Hne].
      * rewrite lookup_alter_eq, Hjob. cbn. split; eauto.
      * by rewrite lookup_alter_ne.
    + intros j' Hj'. rewrite (take_S_r ids m j Hj) in Hj'.
      apply elem_of_app in Hj' as [Hj'|Hj'].
      * cbn. rewrite lookup_alter_ne; [by apply Hproc|].
        intros <-. apply list_elem_of_lookup in Hj' as [i Hi].
        pose proof (lookup_lt_Some _ _ _ Hi) as Hlt. rewrite length_take in Hlt.
        rewrite lookup_take_lt in Hi by lia.
        pose proof (NoDup_lookup ids i m j Hnd Hi Hj). lia.
      * apply list_elem_of_singleton in Hj' as ->. cbn.
        by rewrite lookup_alter_eq, Hjob.
Qed.

Lemma processing_count_ge (ids : list uuid) w :
  NoDup ids →
  (∀ j, j ∈ ids → ScrapingJob.status <$> jobs w !! j = Some PROCESSING) →
  (length ids ≤ processing_count w)%nat.
Proof.
  intros Hnd Hproc. unfold processing_count.
  rewrite <- (size_list_to_set (C := gset uuid) ids Hnd), <- size_dom.
  apply subseteq_size. intros j Hj. apply elem_of_list_to_set in Hj.
  specialize (Hproc j Hj). apply elem_of_dom.
  destruct (jobs w !! j) as [job|] eqn:Hjob; [|done]. cbn in Hproc.
  exists job. apply map_lookup_filter_Some. split; [done|]. cbn. congruence.
Qed.

(** C3, as amended: [process_job] looks neither at [max_concurrent_jobs]
    nor at the jobs already Processing. When the coroutines of any
    number of distinct stored jobs run together and each has executed
    its first three segments, all these jobs are Processing at once;
    [health_check] keeps reporting the maximum 5. *)
Theorem processing_jobs_are_not_limited (env : Env) (ids : list uuid) (w : World) :
  db_fault env SelectJob = None →
  db_fault env (UpdateStatus PROCESSING) = None →
  NoDup ids →
  (∀ j, j ∈ ids → is_Some (jobs w !! j)) →
  let w' :=
    snd (run_schedule (start_schedule (length ids)) (process_job env <$> ids) w) in
  (∀ j, j ∈ ids → ScrapingJob.status <$> jobs w' !! j = Some PROCESSING)
  ∧ (length ids ≤ processing_count w')%nat
  ∧ snd (health_check w') = max_concurrent_jobs
  ∧ max_concurrent_jobs = 5.
Proof.
  intros Hsel Hupd Hnd Hin w'.
  pose proof (start_invariant env ids w Hsel Hupd Hnd Hin (length ids) (le_n _)) as H.
  unfold w'. destruct (run_schedule _ _ w) as [pool_n w_n]. cbn [snd].
  destruct H as (_ & _ & Hproc). rewrite firstn_all in Hproc.
  split; [done|]. split; [by apply processing_count_ge|]. done.
Qed.

End LoopClaims.

Module SampleRuns.

Import Orchestrator Loop Spec.

Example full_run_log :
  job_writes (fst (Task.run (process_job env_ok "job-1") one_job))
  = [("job-1", WStatus PROCESSING); ("job-1", WProgress 10);
     ("job-1", WProgress 30); ("job-1", WResultsCount 2);
     ("job-1", WProgress 40); ("job-1", WProgress 80);
     ("job-1", WProgress 90); ("job-1", WStatus COMPLETED);
     ("job-1", WProgress 100)].
Proof. vm_compute. reflexivity. Qed.

Example basic_run_log :
  job_writes (fst (Task.run (process_job env_ok "job-1") basic_job))
  = [("job-1", WStatus PROCESSING); ("job-1", WProgress 10);
     ("job-1", WProgress 30); ("job-1", WResultsCount 2);
     ("job-1", WProgress 40); ("job-1", WProgress 90);
     ("job-1", WStatus COMPLETED); ("job-1", WProgress 100)].
Proof. vm_compute. reflexivity. Qed.

Example failed_run_log :
  job_writes (fst (Task.run (process_job env_insert_fails "job-1") one_job))
  = [("job-1", WStatus PROCESSING); ("job-1", WProgress 10);
     ("job-1", WProgress 30); ("job-1", WStatus FAILED)].
Proof. vm_compute. reflexivity. Qed.


Lemma cancel_route_by_status_witness :
  (snd (Task.run (Routes.cancel_job env_ok "job-done") two_jobs)
   = Raise (HTTPException 400 "Cannot cancel job with status: completed")
   ∧ fst (Task.run (Routes.cancel_job env_ok "job-done") two_jobs) = two_jobs)
  ∧ snd (Task.run (Routes.cancel_job env_ok "job-queued") two_jobs)
    = Ok "Job job-queued cancelled successfully".
Proof.
  pose proof (CancelClaims.cancel_route_by_status env_ok "job-done" two_jobs
                done_job eq_refl eq_refl eq_refl) as Hdone.
  pose proof (CancelClaims.cancel_route_by_status env_ok "job-queued" two_jobs
                (ScrapingJob.create basic_request) eq_refl eq_refl eq_refl) as Hq.
  cbv zeta in Hdone, Hq.
  destruct (Task.run (Routes.cancel_job env_ok "job-done") two_jobs) as [w1 r1].
  destruct (Task.run (Routes.cancel_job env_ok "job-queued") two_jobs) as [w2 r2].
  split.
  - apply (proj1 Hdone). apply list_elem_of_here.
  - apply (proj2 Hq). apply list_elem_of_here.
Defined.

Lemma six_jobs_processing_at_once :
  processing_count
    (snd (run_schedule (start_schedule 6)
            (process_job env_ok <$> six_ids) six_jobs)) = 6%nat
  ∧ ¬ (Z.of_nat
         (processing_count
            (snd (run_schedule (start_schedule 6)
                    (process_job env_ok <$> six_ids) six_jobs)))
       ≤ max_concurrent_jobs)%Z.
Proof.
  assert (H : processing_count
            (snd (run_schedule (start_schedule 6)
                    (process_job env_ok <$> six_ids) six_jobs)) = 6%nat)
    by (vm_compute; reflexivity).
  split; [exact H|]. rewrite H. unfold max_concurrent_jobs. lia.
Qed.

Lemma processing_jobs_are_not_limited_witness :
  (length six_ids ≤
   processing_count
     (snd (run_schedule (start_schedule (length six_ids))
             (process_job env_ok <$> six_ids) six_jobs)))%nat.
Proof.
  refine (proj1 (proj2
            (LoopClaims.processing_jobs_are_not_limited env_ok six_ids six_jobs
               eq_refl eq_refl _ _))).
  - apply (bool_decide_unpack _). vm_compute. reflexivity.
  - apply Forall_forall. apply (bool_decide_unpack _). vm_compute. reflexivity.
Defined.

End SampleRuns.
